(** * Ocean drop simulator: the sampling, classification and statistics engine

    A shallow embedding of [src/simulation.js] (the [OceanSimulation] driver,
    which [src/app.js] repeats verbatim at its top) and of the geometry
    functions of [src/app.js] (haversine distance, point-to-segment distance,
    coastline distance, ray casting, zone classification).

    JavaScript numbers are modelled by [number]: an exact rational or one of
    the IEEE special values.  Arithmetic on rationals is exact, so rounding
    and the sign of zero are abstracted; the special values follow IEEE 754.
    The transcendental functions of [Math] are an interface, [MathLibrary].

    Counters, comparisons and list structure do not depend on rounding.
    The running mean of [simulateDay] and the interpolation of
    [isPointInPolygon] do: for them the source is embedded a second time
    over binary64 numbers, in [Float64], and what holds of the exact model
    only is stated as such. *)

From Stdlib Require Import QArith Qcanon ZArith Lia.
From Stdlib Require PrimFloat FloatOps SpecFloat.
From stdpp Require Import base numbers option list strings gmap.

Local Open Scope Z_scope.

(** ** JavaScript numbers *)

Inductive number : Type :=
  | Num (q : Qc)
  | Infinity
  | NegInfinity
  | NaN.

#[global] Instance number_eq_dec : EqDecision number.
Proof. solve_decision. Defined.

Declare Scope number_scope.
Delimit Scope number_scope with num.
Bind Scope number_scope with number.

Definition Qc_ltb (x y : Qc) : bool :=
  match (x ?= y)%Qc with Lt => true | _ => false end.

Definition Qc_eqb (x y : Qc) : bool :=
  match (x ?= y)%Qc with Eq => true | _ => false end.

(** Integer and decimal literals of the source. *)
Definition int (z : Z) : number := Num (Qc_of_Z z).
Definition dec (n : Z) (d : positive) : number := Num (Q2Qc (n # d)).

Module Number.

Definition neg (a : number) : number :=
  match a with
  | Num q => Num (- q)
  | Infinity => NegInfinity
  | NegInfinity => Infinity
  | NaN => NaN
  end.

Definition add (a b : number) : number :=
  match a, b with
  | NaN, _ | _, NaN => NaN
  | Num x, Num y => Num (x + y)
  | Infinity, NegInfinity | NegInfinity, Infinity => NaN
  | Infinity, _ | _, Infinity => Infinity
  | NegInfinity, _ | _, NegInfinity => NegInfinity
  end.

Definition sub (a b : number) : number := add a (neg b).

(** [±Infinity * x] for a rational [x]: NaN at zero, else by sign. *)
Definition scale_inf (positive_inf : bool) (x : Qc) : number :=
  if Qc_eqb x 0 then NaN
  else if Bool.eqb positive_inf (Qc_ltb 0 x) then Infinity else NegInfinity.

Definition mul (a b : number) : number :=
  match a, b with
  | NaN, _ | _, NaN => NaN
  | Num x, Num y => Num (x * y)
  | Num x, Infinity | Infinity, Num x => scale_inf true x
  | Num x, NegInfinity | NegInfinity, Num x => scale_inf false x
  | Infinity, Infinity | NegInfinity, NegInfinity => Infinity
  | Infinity, NegInfinity | NegInfinity, Infinity => NegInfinity
  end.

Definition div (a b : number) : number :=
  match a, b with
  | NaN, _ | _, NaN => NaN
  | Num x, Num y =>
      if Qc_eqb y 0 then
        (if Qc_eqb x 0 then NaN
         else if Qc_ltb 0 x then Infinity else NegInfinity)
      else Num (x / y)
  | Num _, Infinity | Num _, NegInfinity => Num 0
  | Infinity, Num y => if Qc_ltb y 0 then NegInfinity else Infinity
  | NegInfinity, Num y => if Qc_ltb y 0 then Infinity else NegInfinity
  | _, _ => NaN
  end.

(** [a < b]; every comparison with NaN is false. *)
Definition lt (a b : number) : bool :=
  match a, b with
  | NaN, _ | _, NaN => false
  | Num x, Num y => Qc_ltb x y
  | NegInfinity, NegInfinity => false
  | NegInfinity, _ => true
  | Infinity, _ => false
  | Num _, Infinity => true
  | Num _, NegInfinity => false
  end.

(** [a === b] on numbers. *)
Definition eqb (a b : number) : bool :=
  match a, b with
  | Num x, Num y => Qc_eqb x y
  | Infinity, Infinity | NegInfinity, NegInfinity => true
  | _, _ => false
  end.

Definition gt (a b : number) : bool := lt b a.
Definition le (a b : number) : bool := lt a b || eqb a b.
Definition ge (a b : number) : bool := le b a.

(** [a ** 2]. *)
Definition sqr (a : number) : number := mul a a.

(** Truthiness of a number: everything but 0 and NaN. *)
Definition truthy (a : number) : bool :=
  match a with
  | Num q => negb (Qc_eqb q 0)
  | NaN => false
  | _ => true
  end.

End Number.

Infix "+" := Number.add : number_scope.
Infix "-" := Number.sub : number_scope.
Infix "*" := Number.mul : number_scope.
Infix "/" := Number.div : number_scope.
Infix "<?" := Number.lt : number_scope.
Infix ">?" := Number.gt : number_scope.
Infix "<=?" := Number.le : number_scope.

(** ** The [Math] object *)

(** [Math.PI] is the double nearest to pi, 0x400921FB54442D18. *)
Definition Math_PI : number := dec 884279719003555 281474976710656.

(** [Math.min] and [Math.max] of two arguments; NaN is contagious. *)
Definition Math_min (a b : number) : number :=
  match a, b with
  | NaN, _ | _, NaN => NaN
  | _, _ => if Number.lt b a then b else a
  end.

Definition Math_max (a b : number) : number :=
  match a, b with
  | NaN, _ | _, NaN => NaN
  | _, _ => if Number.lt a b then b else a
  end.

Definition Math_abs (a : number) : number :=
  if Number.lt a (int 0) then Number.neg a else a.

(** The transcendental functions are supplied by the host. *)
Class MathLibrary : Type := {
  Math_sin : number -> number;
  Math_cos : number -> number;
  Math_asin : number -> number;
  Math_sqrt : number -> number;
  Math_atan2 : number -> number -> number
}.

(** ** Exceptions *)

Inductive exn : Type :=
  | TypeError        (* destructuring [undefined] *)
  | DivisionByZero   (* a checked division met a zero divisor *)
  | OutOfFuel.       (* a loop outlived its iteration bound *)

Inductive result (A : Type) : Type :=
  | Ok (a : A)
  | Throw (e : exn).
Arguments Ok {A} a.
Arguments Throw {A} e.

#[global] Instance result_ret : MRet result := fun A a => Ok a.
#[global] Instance result_bind : MBind result := fun A B f m =>
  match m with
  | Ok a => f a
  | Throw e => Throw e
  end.

(** [const [x, y] = arr[i]]: a missing element throws. *)
Definition destructure {A : Type} (arr : list A) (i : nat) : result A :=
  match arr !! i with
  | Some p => Ok p
  | None => Throw TypeError
  end.

(** Division that reports a zero divisor instead of producing
    [±Infinity] or [NaN]; on any other divisor it is [Number.div]. *)
Definition div_checked (a b : number) : result number :=
  if Number.eqb b (int 0) then Throw DivisionByZero else Ok (a / b)%num.

(** ** Geometry ([src/app.js]) *)

(** A vertex is the array [[lon, lat]]. *)
Definition coord : Type := number * number.

(** What [onCheckLand] hands back in [src/app.js]: [{ type, distanceKm }]. *)
Record TerrainInfo : Type := {
  type : string;
  distanceKm : number
}.

(** The module-level variables [coastlineCoords] (initially [null]) and
    [landPolygons] (initially [[]]). *)
Record Geometry : Type := {
  coastlineCoords : option (list coord);
  landPolygons : list (list coord)
}.

Definition ZONE_COASTAL_KM : number := int 1.
Definition ZONE_SHELF_KM : number := int 100.
Definition ZONE_FAR_KM : number := int 300.

Section App.
Context {M : MathLibrary}.
Local Open Scope number_scope.

Definition haversineDistance (lat1 lon1 lat2 lon2 : number) : number :=
  let R := int 6371 in
  let dLat := (lat2 - lat1) * Math_PI / int 180 in
  let dLon := (lon2 - lon1) * Math_PI / int 180 in
  let a := Number.sqr (Math_sin (dLat / int 2)) +
           Math_cos (lat1 * Math_PI / int 180) *
           Math_cos (lat2 * Math_PI / int 180) *
           Number.sqr (Math_sin (dLon / int 2)) in
  R * int 2 * Math_atan2 (Math_sqrt a) (Math_sqrt (int 1 - a)).

Definition pointToSegmentDistance
    (pLat pLon aLat aLon bLat bLon : number) : number :=
  let segLen := haversineDistance aLat aLon bLat bLon in
  if segLen <? dec 1 1000 then haversineDistance pLat pLon aLat aLon
  else
    let t := Math_max (int 0) (Math_min (int 1) (
               ((pLat - aLat) * (bLat - aLat) + (pLon - aLon) * (bLon - aLon))
               / (segLen * segLen * dec 1 10000))) in
    let projLat := aLat + t * (bLat - aLat) in
    let projLon := aLon + t * (bLon - aLon) in
    haversineDistance pLat pLon projLat projLon.

Definition step : nat := 10.

(** The [for] loop of [getDistanceToCoast], from index [i] on.  Indexes are
    naturals: [i < coords.length - 1] agrees with the truncated
    subtraction, since [i >= 0]. *)
Fixpoint getDistanceToCoast_loop (coords : list coord) (lat lon : number)
    (fuel i : nat) (minDist : number) : result number :=
  if Nat.ltb i (length coords - 1) then
    match fuel with
    | O => Throw OutOfFuel
    | S fuel =>
        '(aLon, aLat) ← destructure coords i;
        '(bLon, bLat) ← destructure coords (Nat.min (i + step) (length coords - 1));
        let dist := pointToSegmentDistance lat lon aLat aLon bLat bLon in
        let minDist := if dist <? minDist then dist else minDist in
        getDistanceToCoast_loop coords lat lon fuel (i + step)%nat minDist
    end
  else Ok minDist.

Definition getDistanceToCoast (g : Geometry) (lat lon : number) : result number :=
  match coastlineCoords g with
  | None => Ok Infinity
  | Some coords =>
      getDistanceToCoast_loop coords lat lon (length coords) 0 Infinity
  end.

(** One edge of the ray-casting test: the condition of the [if].  [&&] does
    not evaluate its right operand when the left one is false.  The division
    is the checked one, so that an edge dividing by zero would show as
    [Throw DivisionByZero]. *)
Definition crossing (lon lat : number) (vi vj : coord) : result bool :=
  let '(xi, yi) := vi in
  let '(xj, yj) := vj in
  if negb (Bool.eqb (yi >? lat) (yj >? lat)) then
    q ← div_checked ((xj - xi) * (lat - yi)) (yj - yi);
    Ok (lon <? q + xi)
  else Ok false.

(** [for (let i = 0, j = polygon.length - 1; i < polygon.length; j = i++)];
    [j] is read only when the ring has a vertex. *)
Fixpoint isPointInPolygon_loop (lon lat : number) (polygon : list coord)
    (fuel i j : nat) (inside : bool) : result bool :=
  if Nat.ltb i (length polygon) then
    match fuel with
    | O => Throw OutOfFuel
    | S fuel =>
        vi ← destructure polygon i;
        vj ← destructure polygon j;
        c ← crossing lon lat vi vj;
        let inside := if (c : bool) then negb inside else inside in
        isPointInPolygon_loop lon lat polygon fuel (S i) i inside
    end
  else Ok inside.

Definition isPointInPolygon (lon lat : number) (polygon : list coord) : result bool :=
  isPointInPolygon_loop lon lat polygon (length polygon) 0 (length polygon - 1) false.

Fixpoint isOnLandPolygon_loop (lon lat : number) (polygons : list (list coord))
    : result bool :=
  match polygons with
  | [] => Ok false
  | polygon :: rest =>
      b ← isPointInPolygon lon lat polygon;
      if (b : bool) then Ok true else isOnLandPolygon_loop lon lat rest
  end.

Definition isOnLandPolygon (g : Geometry) (lon lat : number) : result bool :=
  if lat <? int (-80) then Ok true
  else isOnLandPolygon_loop lon lat (landPolygons g).

Definition getTerrainTypeWithDistance (g : Geometry) (lon lat : number)
    : result TerrainInfo :=
  distKm ← getDistanceToCoast g lat lon;
  land ← isOnLandPolygon g lon lat;
  if (land : bool) then Ok {| type := "LAND"; distanceKm := int 0 |}
  else if distKm <=? ZONE_COASTAL_KM then Ok {| type := "COASTAL"; distanceKm := distKm |}
  else if distKm <=? ZONE_SHELF_KM then Ok {| type := "SHELF"; distanceKm := distKm |}
  else if distKm <=? ZONE_FAR_KM then Ok {| type := "FAR"; distanceKm := distKm |}
  else Ok {| type := "DEEP_OCEAN"; distanceKm := distKm |}.

Definition getTerrainType (g : Geometry) (lon lat : number) : result string :=
  info ← getTerrainTypeWithDistance g lon lat;
  Ok (type info).

End App.

(** ** The driver ([src/simulation.js]) *)

(** A primitive that a land check may return in place of an object. *)
Inductive value : Type :=
  | VBoolean (b : bool)
  | VString (s : string).

(** [a === b] on primitives. *)
Definition value_eqb (a b : value) : bool :=
  match a, b with
  | VBoolean x, VBoolean y => Bool.eqb x y
  | VString x, VString y => String.eqb x y
  | _, _ => false
  end.

(** The result of [onCheckLand]: [typeof terrainInfo === 'object'] or not. *)
Inductive terrain : Type :=
  | InfoObject (o : TerrainInfo)
  | InfoPrimitive (v : value).

(** A [stats] object: property name to number; a missing key reads
    [undefined]. *)
Abbreviation Stats := (gmap string number).

(** [ToNumber(o[k])]: [undefined] becomes [NaN]. *)
Definition get (o : Stats) (k : string) : number := default NaN (o !! k).

(** [o[k]++]. *)
Definition incr (k : string) (o : Stats) : Stats :=
  <[k := (get o k + int 1)%num]> o.

Module Drop.
Record Drop : Type := {
  day : number;
  lon : number;
  lat : number;
  locationType : value;
  distanceKm : option number;   (* [None] is [null] *)
  temp : number
}.
End Drop.
Abbreviation Drop := Drop.Drop.

Module Config.
(** The fields of [config] that the driver state depends on; [None] is an
    absent property.  [onTick] and [onFinish] are hooks of the host: they
    are handed the drop and the statistics and leave the driver alone. *)
Record Config : Type := {
  totalDays : option number;
  onCheckLand : option (number -> number -> terrain)
}.
End Config.
Abbreviation Config := Config.Config.

Module OceanSimulation.

Record OceanSimulation : Type := {
  totalDays : number;
  currentDay : number;
  delay : number;
  isRunning : bool;
  drops : list Drop;
  stats : Stats;
  onCheckLand : number -> number -> terrain
}.

Definition set_currentDay (v : number) (this : OceanSimulation) : OceanSimulation :=
  {| totalDays := totalDays this; currentDay := v; delay := delay this;
     isRunning := isRunning this; drops := drops this; stats := stats this;
     onCheckLand := onCheckLand this |}.

Definition set_delay (v : number) (this : OceanSimulation) : OceanSimulation :=
  {| totalDays := totalDays this; currentDay := currentDay this; delay := v;
     isRunning := isRunning this; drops := drops this; stats := stats this;
     onCheckLand := onCheckLand this |}.

Definition set_isRunning (v : bool) (this : OceanSimulation) : OceanSimulation :=
  {| totalDays := totalDays this; currentDay := currentDay this; delay := delay this;
     isRunning := v; drops := drops this; stats := stats this;
     onCheckLand := onCheckLand this |}.

Definition set_drops (v : list Drop) (this : OceanSimulation) : OceanSimulation :=
  {| totalDays := totalDays this; currentDay := currentDay this; delay := delay this;
     isRunning := isRunning this; drops := v; stats := stats this;
     onCheckLand := onCheckLand this |}.

Definition set_stats (v : Stats) (this : OceanSimulation) : OceanSimulation :=
  {| totalDays := totalDays this; currentDay := currentDay this; delay := delay this;
     isRunning := isRunning this; drops := drops this; stats := v;
     onCheckLand := onCheckLand this |}.

(** [new OceanSimulation(config)]. *)
Definition constructor (config : Config) : OceanSimulation :=
  {| totalDays :=
       match Config.totalDays config with
       | Some n => if Number.truthy n then n else int 1825
       | None => int 1825
       end;
     currentDay := int 0;
     delay := int 50;
     isRunning := false;
     drops := [];
     stats := {[ "land" := int 0; "water" := int 0; "avgTemp" := int 0;
                 "totalAttempts" := int 0; "landAttempts" := int 0 ]};
     onCheckLand :=
       default (fun _ _ => InfoPrimitive (VBoolean false)) (Config.onCheckLand config) |}.

Definition pause (this : OceanSimulation) : OceanSimulation :=
  set_isRunning false this.

Definition reset (this : OceanSimulation) : OceanSimulation :=
  let this := set_isRunning false this in
  let this := set_currentDay (int 0) this in
  let this := set_drops [] this in
  set_stats {[ "land" := int 0; "coastal" := int 0; "water" := int 0;
               "avgTemp" := int 0; "totalAttempts" := int 0;
               "landAttempts" := int 0 ]} this.

Definition setSpeed (speedVal : number) (this : OceanSimulation) : OceanSimulation :=
  set_delay (int 200 - ((speedVal / int 100) * int 199))%num this.

Section Methods.
Context {M : MathLibrary}.
Local Open Scope number_scope.

Definition calculateTemperature (lat : number) : number :=
  let absLat := Math_abs lat in
  let latRad := lat * (Math_PI / int 180) in
  int (-2) + (int 32 * Math_cos latRad).

(** The block "Spherical Sampling": the point [(lon, lat)] drawn from
    two values of [Math.random]. *)
Definition sphericalSample (u v : number) : number * number :=
  let latRad := Math_asin (int 2 * u - int 1) in
  let lonRad := int 2 * Math_PI * v in
  let lat := latRad * (int 180 / Math_PI) in
  let lon := (lonRad * (int 180 / Math_PI)) - int 180 in
  (lon, lat).

(** [typeof terrainInfo === 'object' ? terrainInfo.type : terrainInfo]. *)
Definition locationTypeOf (terrainInfo : terrain) : value :=
  match terrainInfo with
  | InfoObject o => VString (type o)
  | InfoPrimitive v => v
  end.

(** [typeof terrainInfo === 'object' ? terrainInfo.distanceKm : null]. *)
Definition distanceKmOf (terrainInfo : terrain) : option number :=
  match terrainInfo with
  | InfoObject o => Some (distanceKm o)
  | InfoPrimitive _ => None
  end.

(** The retry loop of [simulateDay].  [remaining] is [100 - attempts];
    [random k] is the value of the [k]-th call of [Math.random] made by
    this invocation and [calls] counts the calls made so far.  The result
    is the driver after the loop and the local [drop] ([None] is
    [null]). *)
Fixpoint simulateDay_loop (random : nat -> number) (remaining calls : nat)
    (this : OceanSimulation) : OceanSimulation * option Drop :=
  match remaining with
  | O => (this, None)
  | S remaining =>
      let u := random calls in
      let v := random (S calls) in
      let '(lon, lat) := sphericalSample u v in
      let terrainInfo := onCheckLand this lon lat in
      let locationType := locationTypeOf terrainInfo in
      let distanceKm := distanceKmOf terrainInfo in
      let this := set_stats (incr "totalAttempts" (stats this)) this in
      if value_eqb locationType (VString "LAND") then
        let this := set_stats (incr "landAttempts" (stats this)) this in
        simulateDay_loop random remaining (S (S calls)) this
      else
        let this := set_currentDay (currentDay this + int 1) this in
        let temp := calculateTemperature lat in
        (this, Some {| Drop.day := currentDay this;
                       Drop.lon := lon;
                       Drop.lat := lat;
                       Drop.locationType := locationType;
                       Drop.distanceKm := distanceKm;
                       Drop.temp := temp |})
  end.

Definition simulateDay (random : nat -> number) (this : OceanSimulation)
    : OceanSimulation :=
  let '(this, drop) := simulateDay_loop random 100 0 this in
  match drop with
  | None => this
  | Some drop =>
      let this := set_drops (drops this ++ [drop]) this in
      let this := set_stats (incr "water" (stats this)) this in
      let this :=
        if value_eqb (Drop.locationType drop) (VString "COASTAL")
        then set_stats (incr "coastal" (stats this)) this
        else this in
      set_stats
        (<["avgTemp" := get (stats this) "avgTemp" +
                        (Drop.temp drop - get (stats this) "avgTemp")
                        / currentDay this]> (stats this)) this
  end.

(** One firing of [loop]; the [setTimeout] at its end only asks the host
    for the next firing. *)
Definition loop (random : nat -> number) (this : OceanSimulation) : OceanSimulation :=
  if negb (isRunning this) then this
  else if Number.ge (currentDay this) (totalDays this) then set_isRunning false this
  else simulateDay random this.

Definition start (random : nat -> number) (this : OceanSimulation) : OceanSimulation :=
  if negb (isRunning this) && (currentDay this <? totalDays this)
  then loop random (set_isRunning true this)
  else this.

(** What the host can do to a driver. *)
Inductive call : Type :=
  | CallStart (random : nat -> number)
  | CallPause
  | CallReset
  | CallSetSpeed (speedVal : number)
  | CallLoop (random : nat -> number)        (* a timer fires *)
  | CallSimulateDay (random : nat -> number).

Definition perform (this : OceanSimulation) (c : call) : OceanSimulation :=
  match c with
  | CallStart random => start random this
  | CallPause => pause this
  | CallReset => reset this
  | CallSetSpeed speedVal => setSpeed speedVal this
  | CallLoop random => loop random this
  | CallSimulateDay random => simulateDay random this
  end.

(** A driver run: construction followed by any sequence of calls. *)
Definition run (config : Config) (calls : list call) : OceanSimulation :=
  fold_left perform calls (constructor config).

End Methods.

End OceanSimulation.
Abbreviation OceanSimulation := OceanSimulation.OceanSimulation.

(** ** A rational [Math] library

    Low-order rational approximations of the transcendental functions, used
    to run the embedding on concrete inputs. *)

Module RationalMath.

Definition finite (f : Qc -> Qc) (a : number) : number :=
  match a with
  | Num q => Num (f q)
  | _ => NaN
  end.

Definition sin (a : number) : number :=
  finite (fun x => x - x * x * x / Qc_of_Z 6)%Qc a.

Definition cos (a : number) : number :=
  finite (fun x => 1 - x * x / Qc_of_Z 2 + x * x * x * x / Qc_of_Z 24)%Qc a.

Definition asin (a : number) : number :=
  finite (fun x => x + x * x * x / Qc_of_Z 6)%Qc a.

(** Square root to six decimals, by the integer square root. *)
Definition sqrt (a : number) : number :=
  match a with
  | Num q =>
      if Qc_ltb q 0 then NaN
      else Num (Q2Qc (Z.sqrt (Qnum q * 1000000000000 / Z.pos (Qden q)) # 1000000))
  | Infinity => Infinity
  | _ => NaN
  end.

Definition abs (x : Qc) : Qc := if Qc_ltb x 0 then (- x)%Qc else x.

(** The angle of [(x, y)] measured along the unit diamond; it is exact on
    the axes. *)
Definition atan2 (y x : number) : number :=
  match y, x with
  | Num b, Num a =>
      let r := (abs a + abs b)%Qc in
      if Qc_eqb r 0 then Num 0
      else
        let angle := (Q2Qc (355 # 226) * (1 - a / r))%Qc in
        if Qc_ltb b 0 then Num (- angle) else Num angle
  | _, _ => NaN
  end.

#[export] Instance library : MathLibrary := {
  Math_sin := sin;
  Math_cos := cos;
  Math_asin := asin;
  Math_sqrt := sqrt;
  Math_atan2 := atan2
}.

End RationalMath.


(** ** Concrete inputs *)

(** The ring of the land classifier's example and the stream it flattens to. *)
Definition square_ring : list coord :=
  [(int 0, int 0); (int 0, int 10); (int 10, int 10); (int 10, int 0)].

Definition square_geometry : Geometry :=
  {| coastlineCoords := Some square_ring; landPolygons := [square_ring] |}.

(** A fixed sequence of values in [0, 1). *)
Definition draws (seed k : nat) : number :=
  dec (Z.of_nat ((37 * k + seed) mod 100)) 100.

(** No land check supplied: every point is water. *)
Definition all_ocean : Config :=
  {| Config.totalDays := Some (int 3); Config.onCheckLand := None |}.

(** A land check that answers LAND everywhere. *)
Definition all_land : Config :=
  {| Config.totalDays := Some (int 3);
     Config.onCheckLand := Some (fun _ _ => InfoPrimitive (VString "LAND")) |}.

(** A land check that puts every point half a kilometre off the coast. *)
Definition all_coastal : Config :=
  {| Config.totalDays := Some (int 3);
     Config.onCheckLand :=
       Some (fun _ _ => InfoObject {| type := "COASTAL"; distanceKm := dec 1 2 |}) |}.

(** Start, then two timer firings. *)
Definition three_days : list OceanSimulation.call :=
  [OceanSimulation.CallStart (draws 1); OceanSimulation.CallLoop (draws 2);
   OceanSimulation.CallLoop (draws 3)].

(** The module variables before [init] has loaded anything. *)
Definition no_geometry : Geometry :=
  {| coastlineCoords := None; landPolygons := [] |}.

(** Two streams of three points that differ in the middle point only. *)
Definition stream_a : list coord := [(int 0, int 0); (int 0, int 10); (int 10, int 10)].
Definition stream_b : list coord := [(int 0, int 0); (int 5, int 5); (int 10, int 10)].

(** The rationals among a list of numbers. *)
Definition rationals (l : list number) : list Qc :=
  omap (fun a => match a with Num q => Some q | _ => None end) l.

(** ** Specification vocabulary *)

(** The order of the extended reals on [number]; NaN is unordered. *)
Inductive num_le : number -> number -> Prop :=
  | num_le_Num (x y : Qc) : (x ≤ y)%Qc -> num_le (Num x) (Num y)
  | num_le_NegInfinity (b : number) : b ≠ NaN -> num_le NegInfinity b
  | num_le_Infinity (a : number) : a ≠ NaN -> num_le a Infinity.

Definition num_lt (a b : number) : Prop := num_le a b ∧ a ≠ b.

(** A value that is a number and not negative, or NaN. *)
Definition nonneg_or_nan (a : number) : Prop := a = NaN ∨ num_le (int 0) a.

(** The [k]-th segment that the stride of [step] points picks from the
    coastline point stream: from point [k * step] to the point [step]
    further on, or to the last point when the stream ends before. *)
Definition sampledSegment (coords : list coord) (k : nat) : option (coord * coord) :=
  if Nat.ltb (k * step) (length coords - 1) then
    a ← coords !! (k * step)%nat;
    b ← coords !! Nat.min (k * step + step) (length coords - 1);
    Some (a, b)
  else None.

(** The distance from the query point to a segment of the stream. *)
Definition segmentDistance {M : MathLibrary} (lat lon : number)
    (seg : coord * coord) : number :=
  pointToSegmentDistance lat lon (seg.1).2 (seg.1).1 (seg.2).2 (seg.2).1.

(** The location type that a day's attempt reads when it starts at the
    [calls]-th value of [Math.random]; attempt [k], counted from 0, starts
    at value [2 * k]. *)
Definition attemptType {M : MathLibrary} (this : OceanSimulation)
    (random : nat -> number) (calls : nat) : value :=
  let '(lon, lat) :=
    OceanSimulation.sphericalSample (random calls) (random (S calls)) in
  OceanSimulation.locationTypeOf (OceanSimulation.onCheckLand this lon lat).

(** The fields that [simulateDay] never writes. *)
Definition same_settings (this this' : OceanSimulation) : Prop :=
  OceanSimulation.totalDays this' = OceanSimulation.totalDays this ∧
  OceanSimulation.delay this' = OceanSimulation.delay this ∧
  OceanSimulation.isRunning this' = OceanSimulation.isRunning this ∧
  OceanSimulation.onCheckLand this' = OceanSimulation.onCheckLand this.

(** A day without a drop: all 100 attempts read LAND; the day counter, the
    history and every statistic but the two attempt counters are as before,
    and the attempt counters have each grown by 100. *)
Definition day_skipped {M : MathLibrary} (random : nat -> number)
    (this this' : OceanSimulation) : Prop :=
  (∀ k, (k < 100)%nat -> attemptType this random (2 * k) = VString "LAND") ∧
  OceanSimulation.drops this' = OceanSimulation.drops this ∧
  OceanSimulation.currentDay this' = OceanSimulation.currentDay this ∧
  (∀ key, key ≠ "totalAttempts" -> key ≠ "landAttempts" ->
     OceanSimulation.stats this' !! key = OceanSimulation.stats this !! key) ∧
  get (OceanSimulation.stats this') "totalAttempts" =
    (get (OceanSimulation.stats this) "totalAttempts" + int 100)%num ∧
  get (OceanSimulation.stats this') "landAttempts" =
    (get (OceanSimulation.stats this) "landAttempts" + int 100)%num.

(** A day with a drop: attempt [j] is the first that does not read LAND; one
    drop with every field set is appended, and with it the day counter,
    [water], [coastal] (for a COASTAL drop) and [avgTemp] are updated; the
    attempt counters have grown by the attempts made. *)
Definition day_recorded {M : MathLibrary} (random : nat -> number)
    (this this' : OceanSimulation) : Prop :=
  ∃ (d : Drop) (j : nat),
    (j < 100)%nat ∧
    (∀ i, (i < j)%nat -> attemptType this random (2 * i) = VString "LAND") ∧
    attemptType this random (2 * j) = Drop.locationType d ∧
    value_eqb (Drop.locationType d) (VString "LAND") = false ∧
    OceanSimulation.drops this' = OceanSimulation.drops this ++ [d] ∧
    OceanSimulation.currentDay this' =
      (OceanSimulation.currentDay this + int 1)%num ∧
    Drop.day d = OceanSimulation.currentDay this' ∧
    (Drop.lon d, Drop.lat d) =
      OceanSimulation.sphericalSample (random (2 * j)%nat) (random (S (2 * j))) ∧
    Drop.distanceKm d =
      OceanSimulation.distanceKmOf
        (OceanSimulation.onCheckLand this (Drop.lon d) (Drop.lat d)) ∧
    Drop.temp d = OceanSimulation.calculateTemperature (Drop.lat d) ∧
    get (OceanSimulation.stats this') "totalAttempts" =
      (get (OceanSimulation.stats this) "totalAttempts" + int (Z.of_nat (S j)))%num ∧
    get (OceanSimulation.stats this') "landAttempts" =
      (get (OceanSimulation.stats this) "landAttempts" + int (Z.of_nat j))%num ∧
    OceanSimulation.stats this' !! "water" =
      Some (get (OceanSimulation.stats this) "water" + int 1)%num ∧
    OceanSimulation.stats this' !! "coastal" =
      (if value_eqb (Drop.locationType d) (VString "COASTAL")
       then Some (get (OceanSimulation.stats this) "coastal" + int 1)%num
       else OceanSimulation.stats this !! "coastal") ∧
    OceanSimulation.stats this' !! "avgTemp" =
      Some (get (OceanSimulation.stats this) "avgTemp" +
            (Drop.temp d - get (OceanSimulation.stats this) "avgTemp")
            / OceanSimulation.currentDay this')%num ∧
    (∀ key, key ≠ "totalAttempts" -> key ≠ "landAttempts" -> key ≠ "water" ->
       key ≠ "coastal" -> key ≠ "avgTemp" ->
       OceanSimulation.stats this' !! key = OceanSimulation.stats this !! key).

(** The day counter counts the recorded drops, and no fewer attempts than
    days have been made. *)
Definition days_counted (this : OceanSimulation) : Prop :=
  OceanSimulation.currentDay this =
    int (Z.of_nat (length (OceanSimulation.drops this))) ∧
  num_le (OceanSimulation.currentDay this)
         (get (OceanSimulation.stats this) "totalAttempts").

(** Sum and arithmetic mean of a list of rationals. *)
Definition sum (ts : list Qc) : Qc := foldr Qcplus 0%Qc ts.

(** While the recorded temperatures are the rationals [ts], [avgTemp] times
    the number of drops is their sum. *)
Definition mean_kept (this : OceanSimulation) : Prop :=
  ∀ ts : list Qc,
    Drop.temp <$> OceanSimulation.drops this = Num <$> ts ->
    ∃ a : Qc,
      OceanSimulation.stats this !! "avgTemp" = Some (Num a) ∧
      (a * Qc_of_Z (Z.of_nat (length ts)))%Qc = sum ts.

(** ** The host page ([src/app.js]) *)

(** [arr.push(x)]. *)
Definition push {A : Type} (arr : list A) (x : A) : list A := arr ++ [x].

(** [init], once the precomputed polygons are fetched:
    [coastlineCoords = []; landPolygons.forEach(ring =>
       ring.forEach(coord => coastlineCoords.push(coord)))]. *)
Definition deriveCoastlineCoords (landPolygons : list (list coord)) : list coord :=
  foldl (fun coastlineCoords ring => foldl push coastlineCoords ring) [] landPolygons.

(** The two module variables after that branch of [init]. *)
Definition loadPrecomputed (polygons : list (list coord)) : Geometry :=
  {| coastlineCoords := Some (deriveCoastlineCoords polygons);
     landPolygons := polygons |}.

(** Well-formed GeoJSON geometries, by their [type]; a position is the
    pair of its first two numbers.  A geometry collection has [geometries]
    and no [coordinates]. *)
Inductive GeoGeometry : Type :=
  | GPoint (coordinates : coord)
  | GMultiPoint (coordinates : list coord)
  | GLineString (coordinates : list coord)
  | GMultiLineString (coordinates : list (list coord))
  | GPolygon (coordinates : list (list coord))
  | GMultiPolygon (coordinates : list (list (list coord)))
  | GGeometryCollection (geometries : list GeoGeometry).

(** What [landFeatures] can be: a feature collection, whose features have a
    geometry or [null]; one feature; or a bare geometry. *)
Inductive GeoJSON : Type :=
  | FeatureCollection (features : list (option GeoGeometry))
  | Feature (geometry : option GeoGeometry)
  | Geometry1 (g : GeoGeometry).

(** [processRing]: an array of positions is kept when it is not empty. *)
Definition processRing (ring : list coord) (g : list (list coord) * list coord)
    : list (list coord) * list coord :=
  let '(landPolygons, coastlineCoords) := g in
  match ring with
  | [] => (landPolygons, coastlineCoords)
  | _ :: _ => (push landPolygons ring, foldl push coastlineCoords ring)
  end.

(** [processCoords] on an array of positions whose [type] is neither
    'Polygon' nor 'MultiPolygon': [coords[0]] is a position, so the array is
    taken for a ring; an empty array has no [coords[0]]. *)
Definition processLine (line : list coord) (g : list (list coord) * list coord)
    : list (list coord) * list coord :=
  match line with
  | [] => g
  | _ :: _ => processRing line g
  end.

(** [processCoords(geometry.coordinates, geometry.type)]. *)
Definition processCoords (geometry : GeoGeometry)
    (g : list (list coord) * list coord) : list (list coord) * list coord :=
  match geometry with
  | GPolygon coords => foldl (fun g ring => processRing ring g) g coords
  | GMultiPolygon coords =>
      foldl (fun g polygon => foldl (fun g ring => processRing ring g) g polygon)
            g coords
  | GPoint _ => g
  | GMultiPoint coords | GLineString coords => processLine coords g
  | GMultiLineString coords =>
      match coords with
      | [] => g
      | _ :: _ => foldl (fun g c => processLine c g) g coords
      end
  | GGeometryCollection _ => g
  end.

(** [extractCoastlineCoords]; without [landFeatures] the two module
    variables stay as they are. *)
Definition extractCoastlineCoords (landFeatures : option GeoJSON) (old : Geometry)
    : Geometry :=
  match landFeatures with
  | None => old
  | Some landFeatures =>
      let g : list (list coord) * list coord := ([], []) in
      let g :=
        match landFeatures with
        | FeatureCollection features =>
            foldl (fun g f => match f with
                              | Some geometry => processCoords geometry g
                              | None => g
                              end) g features
        | Feature (Some geometry) => processCoords geometry g
        | Feature None => g
        | Geometry1 (GGeometryCollection geometries) =>
            foldl (fun g geometry => processCoords geometry g) g geometries
        | Geometry1 (GPolygon coords) => processCoords (GPolygon coords) g
        | Geometry1 (GMultiPolygon coords) => processCoords (GMultiPolygon coords) g
        | Geometry1 _ => g
        end in
      {| coastlineCoords := Some g.2; landPolygons := g.1 |}
  end.

(** The [config] that [setupSimulation] builds: 1825 days and
    [getTerrainTypeWithDistance] as the land check.  The classifier always
    returns ([getTerrainTypeWithDistance_returns] below), so the branch for a
    thrown exception is never taken. *)
Definition setupSimulation {M : MathLibrary} (g : Geometry) : Config :=
  {| Config.totalDays := Some (int 1825);
     Config.onCheckLand :=
       Some (fun lon lat =>
               match getTerrainTypeWithDistance g lon lat with
               | Ok info => InfoObject info
               | Throw _ => InfoPrimitive (VString "LAND")
               end) |}.

(** [updateStats]: the count shown as "Coastal Hits",
    [sim.drops.filter(d => d.locationType === 'COASTAL').length]. *)
Definition coastalHits (drops : list Drop) : nat :=
  length (List.filter
            (fun d => value_eqb (Drop.locationType d) (VString "COASTAL")) drops).

(** The numbers that [updateSummaryStats] formats for the panel; it returns
    early on an empty history. *)
Module Summary.

(** [ToNumber] of a distance: [null] counts as 0. *)
Definition toNumber (o : option number) : number := default (int 0) o.

(** [arr.reduce(f)] without an initial value; [None] on an empty array,
    where JavaScript throws. *)
Definition reduce {A : Type} (f : A -> A -> A) (arr : list A) : option A :=
  match arr with
  | [] => None
  | x :: rest => Some (foldl f x rest)
  end.

(** The water percentage, [None] for the text ['--']. *)
Definition waterPct (stats : Stats) : option number :=
  if (get stats "totalAttempts" >? int 0)%num
  then Some ((get stats "totalAttempts" - get stats "landAttempts")
             / get stats "totalAttempts" * int 100)%num
  else None.

Definition coastalDrops (drops : list Drop) : list Drop :=
  List.filter (fun d => match Drop.distanceKm d with
                        | Some x => (x <=? int 1)%num
                        | None => false
                        end) drops.

Definition dropsWithDist (drops : list Drop) : list Drop :=
  List.filter (fun d => match Drop.distanceKm d with
                        | Some x => (x >? int 0)%num
                        | None => false
                        end) drops.

Definition closest (dropsWithDist : list Drop) : option Drop :=
  reduce (fun a b =>
            if (toNumber (Drop.distanceKm a) <? toNumber (Drop.distanceKm b))%num
            then a else b) dropsWithDist.

Definition farthest (dropsWithDist : list Drop) : option Drop :=
  reduce (fun a b =>
            if (toNumber (Drop.distanceKm a) >? toNumber (Drop.distanceKm b))%num
            then a else b) dropsWithDist.

Definition avgDist (dropsWithDist : list Drop) : number :=
  (foldl (fun sum d => sum + toNumber (Drop.distanceKm d)) (int 0) dropsWithDist
   / int (Z.of_nat (length dropsWithDist)))%num.

Definition avgTemp (drops : list Drop) : number :=
  (foldl (fun sum d => sum + Drop.temp d) (int 0) drops
   / int (Z.of_nat (length drops)))%num.

Definition coldDrops (drops : list Drop) : list Drop :=
  List.filter (fun d => (Drop.temp d <? int 4)%num) drops.

Definition warmDrops (drops : list Drop) : list Drop :=
  List.filter (fun d => (Drop.temp d >? int 24)%num) drops.

End Summary.

(** ** Vocabulary of the further properties *)

(** The rings with at least one vertex. *)
Definition nonempty_rings (rings : list (list coord)) : list (list coord) :=
  List.filter (fun ring => match ring with [] => false | _ :: _ => true end) rings.


(** Calls that reach [simulateDay] only through [start] and [loop]. *)
Definition timer_driven (c : OceanSimulation.call) : Prop :=
  match c with
  | OceanSimulation.CallSimulateDay _ => False
  | _ => True
  end.

(** Calls other than [reset] and a direct [simulateDay]. *)
Definition keeps_history (c : OceanSimulation.call) : Prop :=
  match c with
  | OceanSimulation.CallSimulateDay _ | OceanSimulation.CallReset => False
  | _ => True
  end.

(** Calls that neither start the driver, nor reset it, nor simulate a day
    directly: [pause], [setSpeed] and the timer. *)
Definition keeps_paused (c : OceanSimulation.call) : Prop :=
  match c with
  | OceanSimulation.CallPause | OceanSimulation.CallSetSpeed _
  | OceanSimulation.CallLoop _ => True
  | _ => False
  end.

(** A drop that stores what the driver's land check answers at the drop's
    own coordinates, with the temperature of its latitude, and is not
    LAND. *)
Definition drop_faithful {M : MathLibrary} (this : OceanSimulation) (d : Drop) : Prop :=
  Drop.locationType d =
    OceanSimulation.locationTypeOf
      (OceanSimulation.onCheckLand this (Drop.lon d) (Drop.lat d)) ∧
  Drop.distanceKm d =
    OceanSimulation.distanceKmOf
      (OceanSimulation.onCheckLand this (Drop.lon d) (Drop.lat d)) ∧
  Drop.temp d = OceanSimulation.calculateTemperature (Drop.lat d) ∧
  Drop.locationType d ≠ VString "LAND".

(** The four names of the ocean zones. *)
Definition ocean_zone (v : value) : Prop :=
  v = VString "COASTAL" ∨ v = VString "SHELF" ∨ v = VString "FAR" ∨
  v = VString "DEEP_OCEAN".

(** The counters of a driver: [l] land hits, as many water hits as drops,
    their sum as attempts, and a [land] entry that is 0. *)
Definition counters_balanced (this : OceanSimulation) : Prop :=
  ∃ l : Z,
    (0 ≤ l)%Z ∧
    get (OceanSimulation.stats this) "landAttempts" = int l ∧
    get (OceanSimulation.stats this) "water" = int (Z.of_nat (length (OceanSimulation.drops this))) ∧
    get (OceanSimulation.stats this) "totalAttempts" = int (l + Z.of_nat (length (OceanSimulation.drops this))) ∧
    OceanSimulation.stats this !! "land" = Some (int 0).

(** The coastal counter agrees with the count that [updateStats] takes from
    the history. *)
Definition coastal_counted (this : OceanSimulation) : Prop :=
  get (OceanSimulation.stats this) "coastal" =
    int (Z.of_nat (coastalHits (OceanSimulation.drops this))).

(** The stream is the concatenation of the kept rings, none of them empty,
    and they are the non-empty ones of the rings [seen] so far. *)
Definition extracted (seen : list (list coord))
    (g : list (list coord) * list coord) : Prop :=
  g.1 = nonempty_rings seen ∧ g.2 = concat seen.

(** Whatever is processed, the stream stays the concatenation of the kept
    polygons and no kept polygon is empty. *)
Definition flattened (g : list (list coord) * list coord) : Prop :=
  g.2 = concat g.1 ∧ Forall (fun ring => ring ≠ []) g.1.

(** ** The same source in double arithmetic

    Where a result depends on how an operation rounds - the running mean of
    [simulateDay] and the interpolation of [isPointInPolygon] - the source
    is embedded a second time over the binary64 numbers of the kernel
    ([PrimFloat.float]: the IEEE 754 doubles that are the JavaScript
    numbers, every operation rounded to nearest, ties to even).  The
    definitions follow the source line by line, as those over [number]
    do. *)

Module Float64.
Import PrimFloat.
Local Open Scope float_scope.

(** [Math.PI], 3.141592653589793. *)
Definition Math_PI : float := 0x1.921fb54442d18p+1.

(** The functions of the host's [Math] that the driver calls. *)
Class MathLibrary : Type := {
  Math_asin : float -> float;
  Math_cos : float -> float
}.

(** An array length or counter as a number; exact below 2^53. *)
Fixpoint of_nat (n : nat) : float :=
  match n with
  | O => 0
  | S n => of_nat n + 1
  end.

(** The value of a double, as a number of the exact model. *)
Definition exact (x : float) : number :=
  match FloatOps.Prim2SF x with
  | SpecFloat.S754_zero _ => int 0
  | SpecFloat.S754_infinity s => if s then NegInfinity else Infinity
  | SpecFloat.S754_nan => NaN
  | SpecFloat.S754_finite s m e =>
      let q := (inject_Z (Z.pos m) * 2 ^ e)%Q in
      Num (Q2Qc (if s then (- q)%Q else q))
  end.

(** [config.totalDays || 1825]: zero and NaN are falsy. *)
Definition truthy (a : float) : bool := negb (a =? 0) && (a =? a).

Record TerrainInfo : Type := {
  type : string;
  distanceKm : float
}.

Inductive terrain : Type :=
  | InfoObject (o : TerrainInfo)
  | InfoPrimitive (v : value).

Abbreviation Stats := (gmap string float).

(** [ToNumber(o[k])]: [undefined] becomes [NaN]. *)
Definition get (o : Stats) (k : string) : float := default nan (o !! k).

(** [o[k]++]. *)
Definition incr (k : string) (o : Stats) : Stats :=
  <[k := get o k + 1]> o.

Module Drop.
Record Drop : Type := {
  day : float;
  lon : float;
  lat : float;
  locationType : value;
  distanceKm : option float;   (* [None] is [null] *)
  temp : float
}.
End Drop.
Abbreviation Drop := Drop.Drop.

Module Config.
Record Config : Type := {
  totalDays : option float;
  onCheckLand : option (float -> float -> terrain)
}.
End Config.
Abbreviation Config := Config.Config.

Record OceanSimulation : Type := {
  totalDays : float;
  currentDay : float;
  delay : float;
  isRunning : bool;
  drops : list Drop;
  stats : Stats;
  onCheckLand : float -> float -> terrain
}.

Definition set_currentDay (v : float) (this : OceanSimulation) : OceanSimulation :=
  {| totalDays := totalDays this; currentDay := v; delay := delay this;
     isRunning := isRunning this; drops := drops this; stats := stats this;
     onCheckLand := onCheckLand this |}.

Definition set_drops (v : list Drop) (this : OceanSimulation) : OceanSimulation :=
  {| totalDays := totalDays this; currentDay := currentDay this; delay := delay this;
     isRunning := isRunning this; drops := v; stats := stats this;
     onCheckLand := onCheckLand this |}.

Definition set_stats (v : Stats) (this : OceanSimulation) : OceanSimulation :=
  {| totalDays := totalDays this; currentDay := currentDay this; delay := delay this;
     isRunning := isRunning this; drops := drops this; stats := v;
     onCheckLand := onCheckLand this |}.

(** [new OceanSimulation(config)]. *)
Definition constructor (config : Config) : OceanSimulation :=
  {| totalDays :=
       match Config.totalDays config with
       | Some n => if truthy n then n else 1825
       | None => 1825
       end;
     currentDay := 0;
     delay := 50;
     isRunning := false;
     drops := [];
     stats := {[ "land" := 0; "water" := 0; "avgTemp" := 0;
                 "totalAttempts" := 0; "landAttempts" := 0 ]};
     onCheckLand :=
       default (fun _ _ => InfoPrimitive (VBoolean false)) (Config.onCheckLand config) |}.

Section Methods.
Context {M : MathLibrary}.

Definition calculateTemperature (lat : float) : float :=
  let absLat := abs lat in
  let latRad := lat * (Math_PI / 180) in
  -2 + (32 * Math_cos latRad).

Definition sphericalSample (u v : float) : float * float :=
  let latRad := Math_asin (2 * u - 1) in
  let lonRad := 2 * Math_PI * v in
  let lat := latRad * (180 / Math_PI) in
  let lon := (lonRad * (180 / Math_PI)) - 180 in
  (lon, lat).

Definition locationTypeOf (terrainInfo : terrain) : value :=
  match terrainInfo with
  | InfoObject o => VString (type o)
  | InfoPrimitive v => v
  end.

Definition distanceKmOf (terrainInfo : terrain) : option float :=
  match terrainInfo with
  | InfoObject o => Some (distanceKm o)
  | InfoPrimitive _ => None
  end.

(** The retry loop of [simulateDay]; [remaining], [random] and [calls] as
    in the exact model. *)
Fixpoint simulateDay_loop (random : nat -> float) (remaining calls : nat)
    (this : OceanSimulation) : OceanSimulation * option Drop :=
  match remaining with
  | O => (this, None)
  | S remaining =>
      let u := random calls in
      let v := random (S calls) in
      let '(lon, lat) := sphericalSample u v in
      let terrainInfo := onCheckLand this lon lat in
      let locationType := locationTypeOf terrainInfo in
      let distanceKm := distanceKmOf terrainInfo in
      let this := set_stats (incr "totalAttempts" (stats this)) this in
      if value_eqb locationType (VString "LAND") then
        let this := set_stats (incr "landAttempts" (stats this)) this in
        simulateDay_loop random remaining (S (S calls)) this
      else
        let this := set_currentDay (currentDay this + 1) this in
        let temp := calculateTemperature lat in
        (this, Some {| Drop.day := currentDay this;
                       Drop.lon := lon;
                       Drop.lat := lat;
                       Drop.locationType := locationType;
                       Drop.distanceKm := distanceKm;
                       Drop.temp := temp |})
  end.

Definition simulateDay (random : nat -> float) (this : OceanSimulation)
    : OceanSimulation :=
  let '(this, drop) := simulateDay_loop random 100 0 this in
  match drop with
  | None => this
  | Some drop =>
      let this := set_drops (drops this ++ [drop]) this in
      let this := set_stats (incr "water" (stats this)) this in
      let this :=
        if value_eqb (Drop.locationType drop) (VString "COASTAL")
        then set_stats (incr "coastal" (stats this)) this
        else this in
      set_stats
        (<["avgTemp" := get (stats this) "avgTemp" +
                        (Drop.temp drop - get (stats this) "avgTemp")
                        / currentDay this]> (stats this)) this
  end.

End Methods.


(** One edge of the ray-casting test.  A division of doubles never throws:
    a zero divisor gives an infinity or NaN. *)
Definition crossing (lon lat : float) (vi vj : float * float) : bool :=
  let '(xi, yi) := vi in
  let '(xj, yj) := vj in
  negb (Bool.eqb (lat <? yi) (lat <? yj)) &&
  (lon <? (xj - xi) * (lat - yi) / (yj - yi) + xi).

Fixpoint isPointInPolygon_loop (lon lat : float) (polygon : list (float * float))
    (fuel i j : nat) (inside : bool) : result bool :=
  if Nat.ltb i (length polygon) then
    match fuel with
    | O => Throw OutOfFuel
    | S fuel =>
        vi ← destructure polygon i;
        vj ← destructure polygon j;
        let inside := if crossing lon lat vi vj then negb inside else inside in
        isPointInPolygon_loop lon lat polygon fuel (S i) i inside
    end
  else Ok inside.

Definition isPointInPolygon (lon lat : float) (polygon : list (float * float))
    : result bool :=
  isPointInPolygon_loop lon lat polygon (length polygon) 0 (length polygon - 1) false.

(** The answers of the host's [Math] at the arguments that the run below
    passes: asin(0) = 0, asin(-1) = -1.5707963267948966, cos(0) = 1 and
    cos(-1.5707963267948966) = 6.123233995736766e-17, the correctly rounded
    values, which the engines return.  Any other argument is answered NaN
    and would show as a NaN temperature. *)
#[export] Instance host : MathLibrary := {
  Math_asin x :=
    if x =? 0 then x
    else if x =? -1 then -0x1.921fb54442d18p+0
    else nan;
  Math_cos x :=
    if x =? 0 then 1
    else if x =? -0x1.921fb54442d18p+0 then 0x1.1a62633145c07p-54
    else nan
}.




End Float64.

(** ** Arithmetic of [number] *)

Section NumberFacts.
Local Open Scope number_scope.

Lemma Qc_ltb_true (x y : Qc) : Qc_ltb x y = true ↔ (x < y)%Qc.
Proof.
  unfold Qc_ltb. rewrite Qclt_alt.
  destruct (x ?= y)%Qc; split; congruence.
Qed.

Lemma Qc_eqb_true (x y : Qc) : Qc_eqb x y = true ↔ x = y.
Proof.
  unfold Qc_eqb. rewrite Qceq_alt.
  destruct (x ?= y)%Qc; split; congruence.
Qed.

Lemma Qc_eqb_false (x y : Qc) : Qc_eqb x y = false ↔ x ≠ y.
Proof.
  rewrite <- Qc_eqb_true. destruct (Qc_eqb x y); split; congruence.
Qed.

Lemma Qc_ltb_false (x y : Qc) : Qc_ltb x y = false ↔ (y ≤ x)%Qc.
Proof.
  rewrite Qcle_ngt, <- Qc_ltb_true. destruct (Qc_ltb x y); split; congruence.
Qed.

Lemma Qc_eqb_refl (x : Qc) : Qc_eqb x x = true.
Proof. by apply Qc_eqb_true. Qed.

Lemma Qc_of_Z_Q2Qc (z : Z) : Q2Qc (inject_Z z) = Qc_of_Z z.
Proof. apply Qc_is_canon. simpl. apply Qred_correct. Qed.

Lemma int_add (a b : Z) : int a + int b = int (a + b).
Proof. unfold int. simpl. by rewrite Z2Qc_inj_add. Qed.

Lemma add_int_assoc (x : number) (a b : Z) : x + int a + int b = x + int (a + b).
Proof.
  destruct x; try reflexivity.
  unfold int. simpl. by rewrite Z2Qc_inj_add, Qcplus_assoc.
Qed.

Lemma int_mul_eq (a b : Z) : int a * int b = Num (Qc_of_Z (a * b)).
Proof. unfold int. simpl. by rewrite Z2Qc_inj_mul. Qed.

Lemma int_inj (a b : Z) : int a = int b -> a = b.
Proof. unfold int. intros [= H]. done. Qed.

Lemma lt_true (a b : number) : (a <? b) = true ↔ num_lt a b.
Proof.
  unfold num_lt. destruct a as [x| | |], b as [y| | |]; simpl;
    try rewrite Qc_ltb_true; split;
    try (intros [H Hne]; inversion H; subst; congruence);
    try discriminate; try done;
    try (intros _; split; [constructor; done | done]).
  - intros H. split; [constructor; by apply Qclt_le_weak|].
    intros [= ->]. by apply (Qclt_not_eq _ _ H).
  - intros [H Hne]. inversion H; subst.
    destruct (Qcle_lt_or_eq _ _ H2); [done|congruence].
Qed.

Lemma eqb_true (a b : number) : Number.eqb a b = true ↔ a = b ∧ a ≠ NaN.
Proof.
  destruct a as [x| | |], b as [y| | |]; simpl; try rewrite Qc_eqb_true;
    split; try discriminate; try (intros [? ?]; congruence); try done.
  intros ->. done.
Qed.

Lemma le_true (a b : number) : (a <=? b) = true ↔ num_le a b.
Proof.
  unfold Number.le. rewrite orb_true_iff, lt_true, eqb_true. unfold num_lt.
  split.
  - intros [[H _]|[-> Hn]]; [done|].
    destruct b; [constructor; apply Qcle_refl|by constructor|by constructor|done].
  - intros H. destruct (decide (a = b)) as [->|Hne]; [right|left; done].
    split; [done|]. inversion H; subst; congruence.
Qed.

Lemma le_false (a b : number) : (a <=? b) = false ↔ ¬ num_le a b.
Proof. rewrite <- le_true. destruct (a <=? b); split; congruence. Qed.

Lemma num_le_not_NaN_l (a b : number) : num_le a b -> a ≠ NaN.
Proof. by inversion 1. Qed.

Lemma num_le_not_NaN_r (a b : number) : num_le a b -> b ≠ NaN.
Proof. by inversion 1. Qed.

Lemma num_le_refl (a : number) : a ≠ NaN -> num_le a a.
Proof. destruct a; [constructor; apply Qcle_refl|by constructor..|done]. Qed.

Lemma num_le_trans (a b c : number) : num_le a b -> num_le b c -> num_le a c.
Proof.
  intros Hab Hbc. inversion Hab; subst; inversion Hbc; subst;
    try (by constructor); try done.
  constructor. by eapply Qcle_trans.
Qed.

(** Without NaN the order is total: [a < b] fails only if [b <= a]. *)
Lemma lt_false (a b : number) :
  a ≠ NaN -> b ≠ NaN -> (a <? b) = false -> num_le b a.
Proof.
  destruct a as [x| | |], b as [y| | |]; simpl; intros ? ?; try done;
    try (intros _; by constructor).
  rewrite Qc_ltb_false. by constructor.
Qed.

End NumberFacts.

(** ** Ray casting *)

Section RayCasting.
Local Open Scope number_scope.

Lemma destructure_lt {A : Type} (arr : list A) (i : nat) :
  (i < length arr)%nat -> ∃ p, arr !! i = Some p ∧ destructure arr i = Ok p.
Proof.
  intros Hi. destruct (lookup_lt_is_Some_2 arr i Hi) as [p Hp].
  exists p. unfold destructure. by rewrite Hp.
Qed.

(** A difference is zero only between equal numbers. *)
Lemma sub_zero_eq (a b : number) : Number.eqb (b - a) (int 0) = true -> a = b.
Proof.
  destruct a as [x| | |], b as [y| | |]; simpl; try discriminate.
  rewrite Qc_eqb_true. intros H. f_equal.
  rewrite <- (Qcplus_0_l x), <- Z2Qc_inj_0, <- H. ring.
Qed.

Lemma xor_distinct (lat yi yj : number) :
  (yi >? lat) ≠ (yj >? lat) -> yi ≠ yj.
Proof. intros H ->. done. Qed.

Lemma crossing_no_xor (lon lat xi yi xj yj : number) :
  (yi >? lat) = (yj >? lat) -> crossing lon lat (xi, yi) (xj, yj) = Ok false.
Proof. intros H. unfold crossing. rewrite H. by destruct (yj >? lat). Qed.

Lemma crossing_xor (lon lat xi yi xj yj : number) :
  (yi >? lat) ≠ (yj >? lat) ->
  Number.eqb (yj - yi) (int 0) = false ∧
  crossing lon lat (xi, yi) (xj, yj) =
    Ok (lon <? (xj - xi) * (lat - yi) / (yj - yi) + xi).
Proof.
  intros H.
  assert (Number.eqb (yj - yi) (int 0) = false) as Hd.
  { destruct (Number.eqb (yj - yi) (int 0)) eqn:E; [|done].
    by destruct (xor_distinct _ _ _ H (sub_zero_eq _ _ E)). }
  split; [done|]. unfold crossing, div_checked. rewrite Hd.
  by destruct (yi >? lat), (yj >? lat).
Qed.

Lemma crossing_total (lon lat : number) (vi vj : coord) :
  ∃ c, crossing lon lat vi vj = Ok c.
Proof.
  destruct vi as [xi yi], vj as [xj yj].
  destruct (decide ((yi >? lat) = (yj >? lat))) as [H|H].
  - eexists. by apply crossing_no_xor.
  - eexists. by apply crossing_xor.
Qed.

Lemma isPointInPolygon_loop_total (lon lat : number) (polygon : list coord) :
  ∀ (fuel i j : nat) (inside : bool),
    (length polygon ≤ fuel + i)%nat ->
    ((i < length polygon)%nat -> (j < length polygon)%nat) ->
    ∃ b, isPointInPolygon_loop lon lat polygon fuel i j inside = Ok b.
Proof.
  induction fuel as [|fuel IH]; intros i j inside Hfuel Hj; simpl.
  - destruct (Nat.ltb_spec i (length polygon)); [lia|by eexists].
  - destruct (Nat.ltb_spec i (length polygon)) as [Hi|Hi]; [|by eexists].
    destruct (destructure_lt polygon i Hi) as (vi & _ & ->). simpl.
    destruct (destructure_lt polygon j (Hj Hi)) as (vj & _ & ->). simpl.
    destruct (crossing_total lon lat vi vj) as [c ->]. simpl.
    apply IH; [lia|done].
Qed.

Lemma isPointInPolygon_total (lon lat : number) (polygon : list coord) :
  ∃ b, isPointInPolygon lon lat polygon = Ok b.
Proof. apply isPointInPolygon_loop_total; lia. Qed.

Lemma isOnLandPolygon_total (g : Geometry) (lon lat : number) :
  ∃ b, isOnLandPolygon g lon lat = Ok b.
Proof.
  unfold isOnLandPolygon. destruct (lat <? int (-80)); [by eexists|].
  induction (landPolygons g) as [|polygon rest IH]; simpl; [by eexists|].
  destruct (isPointInPolygon_total lon lat polygon) as [[] ->]; simpl;
    [by eexists|done].
Qed.

(** C9. In the ray-casting test, for every ring and query point: the test
    returns normally, so no division ever meets a zero divisor; an edge
    whose two latitudes do not satisfy (yi > lat) XOR (yj > lat) - in
    particular a horizontal edge, yi = yj - is no crossing and is decided
    without dividing; and when the XOR holds, yi and yj differ, the divisor
    yj - yi is not zero, and the edge is a crossing exactly when the
    longitude interpolated at lat exceeds the query longitude. *)
Theorem isPointInPolygon_division_safe (lon lat : number) (polygon : list coord) :
  (∃ inside, isPointInPolygon lon lat polygon = Ok inside) ∧
  (∀ xi yi xj yj : number,
     ((yi >? lat) = (yj >? lat) ->
        crossing lon lat (xi, yi) (xj, yj) = Ok false) ∧
     (yi = yj -> crossing lon lat (xi, yi) (xj, yj) = Ok false) ∧
     ((yi >? lat) ≠ (yj >? lat) ->
        yi ≠ yj ∧ Number.eqb (yj - yi) (int 0) = false ∧
        crossing lon lat (xi, yi) (xj, yj) =
          Ok (lon <? (xj - xi) * (lat - yi) / (yj - yi) + xi))).
Proof.
  split; [apply isPointInPolygon_total|].
  intros xi yi xj yj. split; [apply crossing_no_xor|]. split.
  - intros ->. by apply crossing_no_xor.
  - intros H. split; [by eapply xor_distinct|by apply crossing_xor].
Qed.

End RayCasting.

(** ** Distance to the coast *)

Section Distance.
Context {M : MathLibrary}.
Local Open Scope number_scope.

(** What the proofs need of the host's [Math.sqrt] and [Math.atan2]: a
    square root is never negative, and the angle of a point of the upper
    half plane is never negative. *)
Hypothesis Math_sqrt_range : ∀ x, nonneg_or_nan (Math_sqrt x).
Hypothesis Math_atan2_range :
  ∀ y x, nonneg_or_nan y -> nonneg_or_nan (Math_atan2 y x).

Lemma scale_nonneg_or_nan (c : Qc) (v : number) :
  (0 < c)%Qc -> nonneg_or_nan v -> nonneg_or_nan (Num c * v).
Proof.
  intros Hc [->|Hv]; [by left|]. right.
  inversion Hv as [x y Hxy| |]; subst; simpl.
  - constructor. rewrite Z2Qc_inj_0 in *. apply Qcmult_nonneg_nonneg; [|done].
    by apply Qclt_le_weak.
  - unfold Number.scale_inf.
    assert (Qc_eqb c 0 = false) as ->.
    { apply Qc_eqb_false. intros ->. by apply (Qclt_not_eq _ _ Hc). }
    assert (Qc_ltb 0 c = true) as -> by by apply Qc_ltb_true.
    by constructor.
Qed.

Lemma haversineDistance_range (lat1 lon1 lat2 lon2 : number) :
  nonneg_or_nan (haversineDistance lat1 lon1 lat2 lon2).
Proof.
  unfold haversineDistance. cbv zeta.
  rewrite (int_mul_eq 6371 2).
  apply scale_nonneg_or_nan; [|by apply Math_atan2_range].
  rewrite <- Z2Qc_inj_0. by apply Z2Qc_inj_lt.
Qed.

Lemma pointToSegmentDistance_range (pLat pLon aLat aLon bLat bLon : number) :
  nonneg_or_nan (pointToSegmentDistance pLat pLon aLat aLon bLat bLon).
Proof.
  unfold pointToSegmentDistance. cbv zeta.
  destruct (_ <? dec 1 1000); apply haversineDistance_range.
Qed.

Lemma getDistanceToCoast_loop_total (coords : list coord) (lat lon : number) :
  ∀ (fuel i : nat) (minDist : number),
    (length coords - 1 ≤ fuel + i)%nat ->
    ∃ r, getDistanceToCoast_loop coords lat lon fuel i minDist = Ok r.
Proof.
  induction fuel as [|fuel IH]; intros i minDist Hfuel; simpl.
  - destruct (Nat.ltb_spec i (length coords - 1)); [lia|by eexists].
  - destruct (Nat.ltb_spec i (length coords - 1)) as [Hi|Hi]; [|by eexists].
    destruct (destructure_lt coords i) as ([aLon aLat] & _ & ->); [lia|]. simpl.
    destruct (destructure_lt coords (Nat.min (i + step) (length coords - 1)))
      as ([bLon bLat] & _ & ->); [lia|]. simpl.
    apply IH. unfold step. lia.
Qed.

Lemma getDistanceToCoast_total (g : Geometry) (lat lon : number) :
  ∃ r, getDistanceToCoast g lat lon = Ok r.
Proof.
  unfold getDistanceToCoast. destruct (coastlineCoords g) as [coords|];
    [|by eexists].
  apply getDistanceToCoast_loop_total. lia.
Qed.

Lemma sampledSegment_None (coords : list coord) (k : nat) :
  (length coords - 1 ≤ k * step)%nat -> sampledSegment coords k = None.
Proof.
  intros H. unfold sampledSegment.
  by destruct (Nat.ltb_spec (k * step) (length coords - 1)); [lia|].
Qed.

Lemma sampledSegment_Some (coords : list coord) (k : nat) (a b : coord) :
  (k * step < length coords - 1)%nat ->
  coords !! (k * step)%nat = Some a ->
  coords !! Nat.min (k * step + step) (length coords - 1) = Some b ->
  sampledSegment coords k = Some (a, b).
Proof.
  intros H Ha Hb. unfold sampledSegment.
  destruct (Nat.ltb_spec (k * step) (length coords - 1)); [|lia].
  by rewrite Ha, Hb.
Qed.

(** The loop from segment [k] on: its result is a lower bound of the
    running minimum and of every later sampled distance, and it is one of
    them. *)
Lemma getDistanceToCoast_loop_min (coords : list coord) (lat lon : number) :
  ∀ (fuel k : nat) (minDist r : number),
    getDistanceToCoast_loop coords lat lon fuel (k * step) minDist = Ok r ->
    num_le (int 0) minDist ->
    num_le (int 0) r ∧ num_le r minDist ∧
    (∀ k' seg, (k ≤ k')%nat -> sampledSegment coords k' = Some seg ->
       segmentDistance lat lon seg ≠ NaN ->
       num_le r (segmentDistance lat lon seg)) ∧
    (r = minDist ∨
     ∃ k' seg, (k ≤ k')%nat ∧ sampledSegment coords k' = Some seg ∧
               r = segmentDistance lat lon seg).
Proof.
  induction fuel as [|fuel IH]; intros k minDist r; simpl;
    destruct (Nat.ltb_spec (k * step) (length coords - 1)) as [Hi|Hi];
    try discriminate.
  - intros [= <-] Hm. split; [done|]. split; [by eapply num_le_refl, num_le_not_NaN_r|].
    split; [|by left]. intros k' seg Hk. rewrite sampledSegment_None; [done|].
    unfold step in *. lia.
  - destruct (destructure_lt coords (k * step)) as ([aLon aLat] & Ha & ->); [lia|].
    simpl.
    destruct (destructure_lt coords (Nat.min (k * step + step) (length coords - 1)))
      as ([bLon bLat] & Hb & ->); [lia|]. simpl.
    pose proof (sampledSegment_Some coords k _ _ Hi Ha Hb) as Hseg.
    set (dist := pointToSegmentDistance lat lon aLat aLon bLat bLon).
    intros Hloop Hm.
    assert (minDist ≠ NaN) as HmN by by eapply num_le_not_NaN_r.
    replace (k * step + step)%nat with (S k * step)%nat in Hloop by (unfold step; lia).
    destruct (dist <? minDist) eqn:Hlt.
    + apply lt_true in Hlt as [Hle Hne].
      assert (num_le (int 0) dist) as Hd.
      { destruct (pointToSegmentDistance_range lat lon aLat aLon bLat bLon)
          as [HN|?]; [|done].
        fold dist in HN. by destruct (num_le_not_NaN_l _ _ Hle). }
      destruct (IH _ _ _ Hloop Hd) as (Hr0 & Hrd & Hall & Hex).
      split; [done|]. split; [by eapply num_le_trans|]. split.
      * intros k' seg Hk Hs Hn.
        destruct (decide (k' = k)) as [->|?]; [|apply (Hall k' seg); [lia|done..]].
        rewrite Hseg in Hs. apply (inj Some) in Hs. subst seg.
        exact Hrd.
      * right. destruct Hex as [->|(k' & seg & ? & ? & ?)].
        -- by exists k, ((aLon, aLat), (bLon, bLat)).
        -- exists k', seg. split; [lia|done].
    + destruct (IH _ _ _ Hloop Hm) as (Hr0 & Hrm & Hall & Hex).
      split; [done|]. split; [done|]. split.
      * intros k' seg Hk Hs Hn.
        destruct (decide (k' = k)) as [->|?]; [|apply (Hall k' seg); [lia|done..]].
        rewrite Hseg in Hs. apply (inj Some) in Hs. subst seg.
        eapply num_le_trans; [exact Hrm|].
        apply (lt_false dist minDist); [exact Hn|done..].
      * destruct Hex as [->|(k' & seg & ? & ? & ?)]; [by left|].
        right. exists k', seg. split; [lia|done].
  - intros [= <-] Hm. split; [done|]. split; [by eapply num_le_refl, num_le_not_NaN_r|].
    split; [|by left]. intros k' seg Hk. rewrite sampledSegment_None; [done|].
    unfold step in *. lia.
Qed.

(** C8. For every query point: without coastline data the distance to the
    coast is +Infinity; with a coastline point stream the function returns
    normally, its result is not negative (so it is not NaN), it is at most
    the distance to every stride-sampled segment whose distance is a
    number, and it is +Infinity or the distance to one of these
    segments. *)
Theorem getDistanceToCoast_minimum (g : Geometry) (lat lon : number) :
  (coastlineCoords g = None -> getDistanceToCoast g lat lon = Ok Infinity) ∧
  (∀ coords, coastlineCoords g = Some coords ->
     ∃ r, getDistanceToCoast g lat lon = Ok r ∧
          num_le (int 0) r ∧
          (∀ k seg, sampledSegment coords k = Some seg ->
             segmentDistance lat lon seg ≠ NaN ->
             num_le r (segmentDistance lat lon seg)) ∧
          (r = Infinity ∨
           ∃ k seg, sampledSegment coords k = Some seg ∧
                    r = segmentDistance lat lon seg)).
Proof.
  unfold getDistanceToCoast. split; [by intros ->|].
  intros coords ->.
  destruct (getDistanceToCoast_loop_total coords lat lon (length coords) 0 Infinity)
    as [r Hr]; [lia|].
  exists r. split; [done|].
  destruct (getDistanceToCoast_loop_min coords lat lon (length coords) 0 Infinity r)
    as (Hr0 & _ & Hall & Hex); [done|by constructor|].
  split; [done|]. split.
  - intros k seg. apply (Hall k seg). lia.
  - destruct Hex as [->|(k & seg & _ & ? & ?)]; [by left|right; eauto].
Qed.

End Distance.

(** ** Zone classification *)

Section Zones.
Context {M : MathLibrary}.
Local Open Scope number_scope.

Lemma int_le (a b : Z) : num_le (int a) (int b) ↔ (a ≤ b)%Z.
Proof.
  split.
  - inversion 1; subst. by apply (proj2 (Z2Qc_inj_le a b)).
  - intros H. constructor. by apply (proj1 (Z2Qc_inj_le a b)).
Qed.

(** C7. For every query point the classifier returns normally, after the
    distance to the coast [distKm] and the polygon land test [land]: LAND
    with distance 0 if the land test succeeds; otherwise the distance is
    [distKm] and the zone is COASTAL if distKm <= 1, else SHELF if
    distKm <= 100, else FAR if distKm <= 300, else DEEP_OCEAN; so the
    distances exactly 1, 100 and 300 fall in COASTAL, SHELF and FAR. *)
Theorem getTerrainTypeWithDistance_zones (g : Geometry) (lon lat : number) :
  ∃ distKm land info,
    getDistanceToCoast g lat lon = Ok distKm ∧
    isOnLandPolygon g lon lat = Ok land ∧
    getTerrainTypeWithDistance g lon lat = Ok info ∧
    (land = true -> info = {| type := "LAND"; distanceKm := int 0 |}) ∧
    (land = false ->
       distanceKm info = distKm ∧
       (num_le distKm (int 1) -> type info = "COASTAL") ∧
       (¬ num_le distKm (int 1) -> num_le distKm (int 100) ->
          type info = "SHELF") ∧
       (¬ num_le distKm (int 100) -> num_le distKm (int 300) ->
          type info = "FAR") ∧
       (¬ num_le distKm (int 300) -> type info = "DEEP_OCEAN") ∧
       (distKm = int 1 -> type info = "COASTAL") ∧
       (distKm = int 100 -> type info = "SHELF") ∧
       (distKm = int 300 -> type info = "FAR")).
Proof.
  destruct (getDistanceToCoast_total g lat lon) as [distKm Hd].
  destruct (isOnLandPolygon_total g lon lat) as [land Hl].
  exists distKm, land. unfold getTerrainTypeWithDistance.
  rewrite Hd, Hl. simpl. unfold ZONE_COASTAL_KM, ZONE_SHELF_KM, ZONE_FAR_KM.
  destruct land.
  { eexists. repeat split; done. }
  assert (num_le distKm (int 1) -> num_le distKm (int 100)) as F1.
  { intros H. eapply num_le_trans; [done|]. by apply int_le. }
  assert (num_le distKm (int 100) -> num_le distKm (int 300)) as F2.
  { intros H. eapply num_le_trans; [done|]. by apply int_le. }
  destruct (distKm <=? int 1) eqn:H1;
    [apply le_true in H1|apply le_false in H1];
    [|destruct (distKm <=? int 100) eqn:H2;
      [apply le_true in H2|apply le_false in H2];
      [|destruct (distKm <=? int 300) eqn:H3;
        [apply le_true in H3|apply le_false in H3]]];
    eexists; (split; [done|]); (split; [done|]); (split; [done|]);
    (split; [done|]); intros _; simpl;
    repeat split; try done; try tauto;
    intros ->; rewrite ?int_le in *; lia.
Qed.

End Zones.

(** ** The statistics object *)

Section StatsFacts.
Local Open Scope number_scope.

Lemma add_int_0 (x : number) : x + int 0 = x.
Proof.
  destruct x; try reflexivity. unfold int. simpl.
  by rewrite Z2Qc_inj_0, Qcplus_0_r.
Qed.

Lemma lookup_incr_eq (k : string) (o : Stats) :
  incr k o !! k = Some (get o k + int 1).
Proof. unfold incr. by rewrite lookup_insert_eq. Qed.

Lemma lookup_incr_ne (k k' : string) (o : Stats) :
  k ≠ k' -> incr k o !! k' = o !! k'.
Proof. intros H. unfold incr. by rewrite lookup_insert_ne. Qed.

Lemma get_incr_eq (k : string) (o : Stats) : get (incr k o) k = get o k + int 1.
Proof. unfold get at 1. by rewrite lookup_incr_eq. Qed.

Lemma get_incr_ne (k k' : string) (o : Stats) :
  k ≠ k' -> get (incr k o) k' = get o k'.
Proof. intros H. unfold get. by rewrite lookup_incr_ne. Qed.

End StatsFacts.

(** ** One day *)

Section Day.
Import OceanSimulation.
Context {M : MathLibrary}.
Local Open Scope number_scope.

(** The retry loop, from any number of remaining attempts. *)
Lemma simulateDay_loop_spec (random : nat -> number) :
  ∀ (remaining calls : nat) (this this' : OceanSimulation) (drop : option Drop),
    simulateDay_loop random remaining calls this = (this', drop) ->
    same_settings this this' ∧ drops this' = drops this ∧
    (∀ key, key ≠ "totalAttempts" -> key ≠ "landAttempts" ->
       stats this' !! key = stats this !! key) ∧
    match drop with
    | None =>
        currentDay this' = currentDay this ∧
        (∀ j, (j < remaining)%nat ->
           attemptType this random (calls + 2 * j) = VString "LAND") ∧
        get (stats this') "totalAttempts" =
          get (stats this) "totalAttempts" + int (Z.of_nat remaining) ∧
        get (stats this') "landAttempts" =
          get (stats this) "landAttempts" + int (Z.of_nat remaining)
    | Some d =>
        ∃ j, (j < remaining)%nat ∧
          (∀ i, (i < j)%nat ->
             attemptType this random (calls + 2 * i) = VString "LAND") ∧
          attemptType this random (calls + 2 * j) = Drop.locationType d ∧
          value_eqb (Drop.locationType d) (VString "LAND") = false ∧
          currentDay this' = currentDay this + int 1 ∧
          Drop.day d = currentDay this' ∧
          (Drop.lon d, Drop.lat d) =
            sphericalSample (random (calls + 2 * j)%nat)
                            (random (S (calls + 2 * j))) ∧
          Drop.distanceKm d =
            distanceKmOf (onCheckLand this (Drop.lon d) (Drop.lat d)) ∧
          Drop.temp d = calculateTemperature (Drop.lat d) ∧
          get (stats this') "totalAttempts" =
            get (stats this) "totalAttempts" + int (Z.of_nat (S j)) ∧
          get (stats this') "landAttempts" =
            get (stats this) "landAttempts" + int (Z.of_nat j)
    end.
Proof.
  induction remaining as [|remaining IH]; intros calls this this' drop Hloop;
    cbn [simulateDay_loop] in Hloop.
  - injection Hloop as <- <-. repeat split; try done; try lia.
    all: by rewrite add_int_0.
  - destruct (sphericalSample (random calls) (random (S calls))) as [lon lat] eqn:Hs.
    assert (attemptType this random (calls + 2 * 0) =
            locationTypeOf (onCheckLand this lon lat)) as Hfirst.
    { unfold attemptType. replace (calls + 2 * 0)%nat with calls by lia.
      by rewrite Hs. }
    destruct (value_eqb (locationTypeOf (onCheckLand this lon lat)) (VString "LAND"))
      eqn:Hland.
    + apply IH in Hloop.
      destruct Hloop as ((Ht & Hd & Hr & Hc) & Hdrops & Hkeys & Hdrop).
      simpl in Ht, Hd, Hr, Hc, Hdrops, Hkeys.
      assert (locationTypeOf (onCheckLand this lon lat) = VString "LAND") as HL.
      { destruct (locationTypeOf (onCheckLand this lon lat)) as [b|s]; [done|].
        simpl in Hland. by apply String.eqb_eq in Hland as ->. }
      assert (∀ this0 c, onCheckLand this0 = onCheckLand this ->
                attemptType this0 random c = attemptType this random c) as Hsame.
      { intros this0 c Heq. unfold attemptType. by rewrite Heq. }
      split; [done|]. split; [done|]. split.
      { intros key H1 H2. rewrite Hkeys by done.
        by rewrite !lookup_incr_ne. }
      destruct drop as [d|].
      * destruct Hdrop as (j & Hj & Hbefore & Hat & Hne & Hday & Hdd & Hsample
                              & Hdist & Htemp & Hta & Hla).
        cbn [stats set_stats currentDay onCheckLand] in *.
        rewrite get_incr_ne, get_incr_eq, add_int_assoc in Hta by done.
        rewrite get_incr_eq, get_incr_ne, add_int_assoc in Hla by done.
        exists (S j). split; [lia|].
        replace (calls + 2 * S j)%nat with (S (S calls) + 2 * j)%nat by lia.
        replace (1 + Z.of_nat (S j))%Z with (Z.of_nat (S (S j))) in Hta by lia.
        replace (1 + Z.of_nat j)%Z with (Z.of_nat (S j)) in Hla by lia.
        rewrite Hsame in Hat by done.
        repeat split; try done.
        intros [|i] Hi; [by rewrite Hfirst|].
        replace (calls + 2 * S i)%nat with (S (S calls) + 2 * i)%nat by lia.
        erewrite <- Hsame; [apply Hbefore; lia|done].
      * destruct Hdrop as (Hday & Hall & Hta & Hla).
        cbn [stats set_stats currentDay onCheckLand] in *.
        rewrite get_incr_ne, get_incr_eq, add_int_assoc in Hta by done.
        rewrite get_incr_eq, get_incr_ne, add_int_assoc in Hla by done.
        replace (1 + Z.of_nat remaining)%Z with (Z.of_nat (S remaining)) in * by lia.
        repeat split; try done.
        intros [|j] Hj; [by rewrite Hfirst|].
        replace (calls + 2 * S j)%nat with (S (S calls) + 2 * j)%nat by lia.
        erewrite <- Hsame; [apply Hall; lia|done].
    + injection Hloop as <- <-. split; [done|]. split; [done|]. split.
      { intros key H1 H2. cbn [stats set_stats set_currentDay].
        by rewrite lookup_incr_ne. }
      exists 0%nat. rewrite Hfirst.
      replace (calls + 2 * 0)%nat with calls by lia. rewrite Hs.
      cbn [stats set_stats set_currentDay currentDay onCheckLand
           Drop.locationType Drop.day Drop.lon Drop.lat Drop.distanceKm Drop.temp].
      rewrite get_incr_eq, get_incr_ne, add_int_0 by done.
      repeat split; try done; try lia.
Qed.

Lemma get_eq (o o' : Stats) (key : string) : o' !! key = o !! key -> get o' key = get o key.
Proof. unfold get. by intros ->. Qed.

(** What one call of [simulateDay] does. *)
Lemma simulateDay_cases (random : nat -> number) (this : OceanSimulation) :
  same_settings this (simulateDay random this) ∧
  (day_recorded random this (simulateDay random this) ∨
   day_skipped random this (simulateDay random this)).
Proof.
  unfold simulateDay.
  destruct (simulateDay_loop random 100 0 this) as [this1 drop] eqn:Hloop.
  apply simulateDay_loop_spec in Hloop.
  destruct Hloop as (Hset & Hdrops & Hkeys & Hdrop).
  destruct drop as [d|].
  - destruct Hdrop as (j & Hj & Hbefore & Hat & Hne & Hday & Hdd & Hsample
                          & Hdist & Htemp & Hta & Hla).
    assert (∀ key, key ≠ "totalAttempts" -> key ≠ "landAttempts" ->
              get (stats this1) key = get (stats this) key) as Hget.
    { intros key H1 H2. by apply get_eq, Hkeys. }
    split.
    { destruct Hset as (? & ? & ? & ?). unfold same_settings.
      by destruct (value_eqb (Drop.locationType d) (VString "COASTAL")). }
    left. exists d, j. split; [done|]. split; [done|]. split; [done|].
    split; [done|].
    destruct (value_eqb (Drop.locationType d) (VString "COASTAL")) eqn:Hcoastal;
      cbn [stats set_stats set_drops drops currentDay onCheckLand];
      rewrite ?lookup_insert_eq, ?lookup_insert_ne, ?lookup_incr_eq,
        ?lookup_incr_ne, ?get_incr_ne, ?get_incr_eq, ?lookup_incr_eq by done;
      rewrite ?(lookup_insert_ne _ "avgTemp" "totalAttempts"),
        ?(lookup_insert_ne _ "avgTemp" "landAttempts") by done;
      rewrite ?Hget, ?Hdrops by done;
      (repeat split; try done);
      try (by rewrite <- Hta; unfold get; rewrite lookup_insert_ne,
             ?lookup_incr_ne by done);
      try (by rewrite <- Hla; unfold get; rewrite lookup_insert_ne,
             ?lookup_incr_ne by done);
      try (by apply Hkeys);
      try (intros key ? ? ? ? ?; rewrite lookup_insert_ne,
             ?lookup_incr_ne by done; by apply Hkeys).
  - destruct Hdrop as (Hday & Hall & Hta & Hla).
    split; [done|]. right. by repeat split.
Qed.

End Day.

(** ** Driver runs *)

Section Run.
Import OceanSimulation.
Context {M : MathLibrary}.
Local Open Scope number_scope.

Lemma sum_snoc (ts : list Qc) (t : Qc) : sum (ts ++ [t]) = (sum ts + t)%Qc.
Proof.
  unfold sum. induction ts as [|x ts IH]; simpl.
  - ring.
  - rewrite IH. ring.
Qed.

Lemma Qc_of_nat_S (n : nat) :
  Qc_of_Z (Z.of_nat (S n)) = (Qc_of_Z (Z.of_nat n) + 1)%Qc.
Proof. by rewrite Nat2Z.inj_succ, <- Z.add_1_r, Z2Qc_inj_add, Z2Qc_inj_1. Qed.

Lemma Qc_of_nat_S_nonzero (n : nat) : Qc_of_Z (Z.of_nat (S n)) ≠ 0%Qc.
Proof. rewrite <- Z2Qc_inj_0. intros H%Z2Qc_inj. lia. Qed.

Lemma num_le_add_int (x y : number) (a b : Z) :
  (a ≤ b)%Z -> num_le x y -> num_le (x + int a) (y + int b).
Proof.
  intros Hab Hxy. inversion Hxy; subst; simpl.
  - constructor. apply Qcplus_le_compat; [done|].
    by apply (proj1 (Z2Qc_inj_le a b)).
  - destruct y; try done; by constructor.
  - destruct x; try done; by constructor.
Qed.

(** The invariants hold after construction and after [reset]. *)
Lemma days_counted_constructor (config : Config) :
  days_counted (constructor config).
Proof. split; [done|]. by apply int_le. Qed.

Lemma mean_kept_constructor (config : Config) : mean_kept (constructor config).
Proof.
  intros ts Hts. exists (Qc_of_Z 0). split; [done|].
  destruct ts; [|done]. by apply Qc_is_canon.
Qed.

Lemma days_counted_reset (this : OceanSimulation) : days_counted (reset this).
Proof. split; [done|]. by apply int_le. Qed.

Lemma mean_kept_reset (this : OceanSimulation) : mean_kept (reset this).
Proof.
  intros ts Hts. exists (Qc_of_Z 0). split; [done|].
  destruct ts; [|done]. by apply Qc_is_canon.
Qed.

(** [simulateDay] keeps them. *)
Lemma days_counted_simulateDay (random : nat -> number) (this : OceanSimulation) :
  days_counted this -> days_counted (simulateDay random this).
Proof.
  intros [Hday Hatt].
  destruct (simulateDay_cases random this) as [_ [Hrec|Hskip]].
  - destruct Hrec as (d & j & _ & _ & _ & _ & Hdrops & Hcur & _ & _ & _ & _
                        & Hta & _).
    split.
    + rewrite Hcur, Hdrops, Hday, int_add, length_app. f_equal. simpl. lia.
    + rewrite Hcur, Hta. apply num_le_add_int; [lia|done].
  - destruct Hskip as (_ & Hdrops & Hcur & _ & Hta & _).
    split.
    + by rewrite Hcur, Hdrops.
    + rewrite Hcur, Hta, <- (add_int_0 (currentDay this)).
      apply num_le_add_int; [lia|done].
Qed.

Lemma mean_kept_simulateDay (random : nat -> number) (this : OceanSimulation) :
  days_counted this -> mean_kept this -> mean_kept (simulateDay random this).
Proof.
  intros [Hday _] Hmean.
  destruct (simulateDay_cases random this) as [_ [Hrec|Hskip]].
  - destruct Hrec as (d & j & _ & _ & _ & _ & Hdrops & Hcur & _ & _ & _ & _
                        & _ & _ & _ & _ & Havg & _).
    intros ts' Hts'. rewrite Hdrops, fmap_app in Hts'.
    symmetry in Hts'. apply fmap_app_inv in Hts' as (ts & last & Hts & Hlast & ->).
    destruct last as [|t [|? ?]]; try done. injection Hlast as Ht.
    destruct (Hmean ts) as (a & Ha & Hsum); [done|].
    assert (length (drops this) = length ts) as Hlen.
    { by rewrite <- (length_fmap Drop.temp), Hts, length_fmap. }
    rewrite Havg, Hcur, Hday, int_add, Ht, Hlen. unfold get. rewrite Ha. simpl.
    replace (Z.of_nat (length ts) + 1)%Z with (Z.of_nat (S (length ts))) by lia.
    assert (Qc_eqb (Qc_of_Z (Z.of_nat (S (length ts)))) 0 = false) as ->.
    { apply Qc_eqb_false, Qc_of_nat_S_nonzero. }
    eexists. split; [done|].
    rewrite length_app, sum_snoc, <- Hsum. simpl.
    replace (length ts + 1)%nat with (S (length ts)) by lia.
    pose proof (Qc_of_nat_S_nonzero (length ts)) as Hnz.
    rewrite Qc_of_nat_S in *. field. done.
  - destruct Hskip as (_ & Hdrops & _ & Hkeys & _).
    intros ts Hts. rewrite Hdrops in Hts. rewrite Hkeys by done. by apply Hmean.
Qed.

(** Both invariants only read the day counter, the history and the
    statistics. *)
Lemma days_counted_ext (this this' : OceanSimulation) :
  currentDay this' = currentDay this -> drops this' = drops this ->
  stats this' = stats this -> days_counted this -> days_counted this'.
Proof. unfold days_counted. by intros -> -> ->. Qed.

Lemma mean_kept_ext (this this' : OceanSimulation) :
  drops this' = drops this -> stats this' = stats this ->
  mean_kept this -> mean_kept this'.
Proof. unfold mean_kept. by intros -> ->. Qed.

Lemma perform_invariant (this : OceanSimulation) (c : call) :
  days_counted this ∧ mean_kept this ->
  days_counted (perform this c) ∧ mean_kept (perform this c).
Proof.
  intros [Hd Hm].
  assert (∀ b, days_counted (set_isRunning b this) ∧ mean_kept (set_isRunning b this))
    as Hflag.
  { intros b. split; [by eapply days_counted_ext|by eapply mean_kept_ext]. }
  assert (∀ random this0, days_counted this0 ∧ mean_kept this0 ->
            days_counted (loop random this0) ∧ mean_kept (loop random this0))
    as Hloop.
  { intros random this0 [Hd0 Hm0]. unfold loop.
    destruct (negb (isRunning this0)); [done|].
    destruct (Number.ge _ _).
    - split; [by eapply days_counted_ext|by eapply mean_kept_ext].
    - split; [by apply days_counted_simulateDay|by apply mean_kept_simulateDay]. }
  destruct c as [random| | |speedVal|random|random]; simpl.
  - unfold start. destruct (_ && _); [|done]. apply Hloop, Hflag.
  - apply Hflag.
  - split; [apply days_counted_reset|apply mean_kept_reset].
  - split; [by eapply days_counted_ext|by eapply mean_kept_ext].
  - by apply Hloop.
  - split; [by apply days_counted_simulateDay|by apply mean_kept_simulateDay].
Qed.

Lemma run_invariant (config : Config) (calls : list call) :
  days_counted (run config calls) ∧ mean_kept (run config calls).
Proof.
  unfold run.
  assert (days_counted (constructor config) ∧ mean_kept (constructor config)) as H0.
  { split; [apply days_counted_constructor|apply mean_kept_constructor]. }
  revert H0. generalize (constructor config).
  induction calls as [|c calls IH]; intros this H; simpl; [done|].
  by apply IH, perform_invariant.
Qed.

End Run.

(** ** The driver's claims *)

Section Driver.
Import OceanSimulation.
Context {M : MathLibrary}.
Local Open Scope number_scope.


(** C2, amended. Every call of simulateDay leaves totalDays, delay,
    isRunning and the land check alone, and either appends exactly one drop
    with every field set and updates currentDay, water, coastal and avgTemp
    with it, or - when all 100 attempts read LAND - leaves currentDay, the
    history and every statistic but the attempt counters as they were; the
    attempt counters totalAttempts and landAttempts grow by the attempts
    made in both cases, by 100 each in the second. *)
Theorem simulateDay_commit (random : nat -> number) (this : OceanSimulation) :
  same_settings this (simulateDay random this) ∧
  (day_recorded random this (simulateDay random this) ∨
   day_skipped random this (simulateDay random this)).
Proof. apply simulateDay_cases. Qed.

(** C4. After construction and after every further call the day counter is
    the number of recorded drops and totalAttempts is at least the day
    counter. *)
Theorem currentDay_counts_drops (config : Config) (calls : list call) :
  currentDay (run config calls) =
    int (Z.of_nat (length (drops (run config calls)))) ∧
  num_le (currentDay (run config calls))
         (get (stats (run config calls)) "totalAttempts").
Proof. apply run_invariant. Qed.

(** C5. If all 100 attempts of one simulateDay call read LAND, then
    currentDay, the history, water, coastal and avgTemp are unchanged and
    landAttempts and totalAttempts have each grown by exactly 100. *)
Theorem simulateDay_all_land (random : nat -> number) (this : OceanSimulation) :
  (∀ k, (k < 100)%nat -> attemptType this random (2 * k) = VString "LAND") ->
  currentDay (simulateDay random this) = currentDay this ∧
  drops (simulateDay random this) = drops this ∧
  stats (simulateDay random this) !! "water" = stats this !! "water" ∧
  stats (simulateDay random this) !! "coastal" = stats this !! "coastal" ∧
  stats (simulateDay random this) !! "avgTemp" = stats this !! "avgTemp" ∧
  get (stats (simulateDay random this)) "landAttempts" =
    get (stats this) "landAttempts" + int 100 ∧
  get (stats (simulateDay random this)) "totalAttempts" =
    get (stats this) "totalAttempts" + int 100.
Proof.
  intros Hland.
  destruct (simulateDay_cases random this) as [_ [Hrec|Hskip]].
  - destruct Hrec as (d & j & Hj & _ & Hat & Hne & _).
    rewrite (Hland j Hj) in Hat. by rewrite <- Hat in Hne.
  - destruct Hskip as (_ & Hdrops & Hcur & Hkeys & Hta & Hla).
    rewrite !Hkeys by done. done.
Qed.

End Driver.

Section DriverSettings.
Import OceanSimulation.
Local Open Scope number_scope.

(** C6. setSpeed at the slowest control value 1 sets the delay to 198.01 ms
    and not to 200 ms; at 100 it sets 1 ms, and for every rational control
    value s the delay is 200 - (s / 100) * 199. *)
Theorem setSpeed_delay (this : OceanSimulation) :
  delay (setSpeed (int 1) this) = dec 19801 100 ∧
  delay (setSpeed (int 1) this) ≠ int 200 ∧
  delay (setSpeed (int 100) this) = int 1 ∧
  (∀ s : Qc, delay (setSpeed (Num s) this) =
             Num (Qc_of_Z 200 - s / Qc_of_Z 100 * Qc_of_Z 199)).
Proof.
  assert (∀ s : Qc, delay (setSpeed (Num s) this) =
                    Num (Qc_of_Z 200 - s / Qc_of_Z 100 * Qc_of_Z 199)) as Hlin.
  { intros s. done. }
  assert (delay (setSpeed (int 1) this) = dec 19801 100) as H1.
  { unfold int. rewrite Hlin. unfold dec. apply (f_equal Num).
    by apply Qc_is_canon. }
  split; [done|]. split.
  - rewrite H1. intros [=].
  - split; [|done]. unfold int. rewrite Hlin. apply (f_equal Num).
    by apply Qc_is_canon.
Qed.

(** C10. Constructing a driver with totalDays absent, 0 or NaN configures
    1825 days; with any other number n it configures n days. *)
Theorem constructor_totalDays (config : Config) :
  (Config.totalDays config = None ∨ Config.totalDays config = Some (int 0) ∨
   Config.totalDays config = Some NaN ->
   totalDays (constructor config) = int 1825) ∧
  (∀ n, Config.totalDays config = Some n -> n ≠ int 0 -> n ≠ NaN ->
        totalDays (constructor config) = n).
Proof.
  unfold constructor. cbn [totalDays]. split.
  - by intros [->|[->| ->]].
  - intros n -> H0 HN. destruct n as [q| | |]; try done.
    cbn [Number.truthy]. destruct (Qc_eqb q 0) eqn:E; [|done].
    apply Qc_eqb_true in E as ->. destruct H0. unfold int. by rewrite Z2Qc_inj_0.
Qed.

End DriverSettings.

(** ** The rational [Math] library meets the range conditions *)

Section RationalMathFacts.
Local Open Scope number_scope.

Lemma Q2Qc_nonneg (z : Z) (d : positive) : (0 ≤ z)%Z -> (0 ≤ Q2Qc (z # d))%Qc.
Proof.
  intros Hz. unfold Qcle. simpl. rewrite !Qred_correct.
  unfold Qle. simpl. lia.
Qed.

Lemma num_le_0_Num (q : Qc) : num_le (int 0) (Num q) ↔ (0 ≤ q)%Qc.
Proof.
  unfold int. rewrite Z2Qc_inj_0. split; [by inversion 1|by constructor].
Qed.

Lemma RationalMath_sqrt_range (x : number) : nonneg_or_nan (RationalMath.sqrt x).
Proof.
  destruct x as [q| | |]; simpl; try (by left).
  - destruct (Qc_ltb q 0); [by left|]. right.
    apply num_le_0_Num, Q2Qc_nonneg, Z.sqrt_nonneg.
  - right. by constructor.
Qed.

Lemma Qcopp_nonneg (x : Qc) : (x < 0)%Qc -> (0 ≤ - x)%Qc.
Proof.
  intros H%Qclt_le_weak%Qcopp_le_compat.
  by replace (- 0)%Qc with 0%Qc in H by ring.
Qed.

Lemma RationalMath_abs_nonneg (x : Qc) : (0 ≤ RationalMath.abs x)%Qc.
Proof.
  unfold RationalMath.abs. destruct (Qc_ltb x 0) eqn:E.
  - by apply Qcopp_nonneg, Qc_ltb_true.
  - by apply Qc_ltb_false in E.
Qed.

Lemma RationalMath_abs_le (x : Qc) : (x ≤ RationalMath.abs x)%Qc.
Proof.
  unfold RationalMath.abs. destruct (Qc_ltb x 0) eqn:E; [|apply Qcle_refl].
  apply Qc_ltb_true in E.
  eapply Qcle_trans; [by apply Qclt_le_weak|by apply Qcopp_nonneg].
Qed.

Lemma RationalMath_atan2_range (y x : number) :
  nonneg_or_nan y -> nonneg_or_nan (RationalMath.atan2 y x).
Proof.
  intros [->|Hy]; [by left|].
  destruct y as [b| | |], x as [a| | |]; simpl; try (by left).
  apply num_le_0_Num in Hy.
  set (r := (RationalMath.abs a + RationalMath.abs b)%Qc).
  destruct (Qc_eqb r 0) eqn:Er; [right; by apply num_le_0_Num|].
  apply Qc_eqb_false in Er.
  assert (Qc_ltb b 0 = false) as -> by by apply Qc_ltb_false.
  right. apply num_le_0_Num.
  assert (0 ≤ r)%Qc as Hr0.
  { apply Qcplus_nonneg_nonneg; apply RationalMath_abs_nonneg. }
  assert (0 < r)%Qc as Hr.
  { destruct (Qcle_lt_or_eq _ _ Hr0); [done|congruence]. }
  assert (a ≤ r)%Qc as Har.
  { eapply Qcle_trans; [apply RationalMath_abs_le|].
    rewrite <- (Qcplus_0_r (RationalMath.abs a)) at 1.
    apply Qcplus_le_mono_l, RationalMath_abs_nonneg. }
  apply Qcmult_nonneg_nonneg; [by apply Q2Qc_nonneg|].
  apply (proj1 (Qcle_minus_iff (a / r) 1)).
  apply (proj2 (Qcmult_le_mono_pos_r (a / r) 1 r Hr)).
  by rewrite Qcmult_1_l, (Qcmult_comm _ r), Qcmult_div_r.
Qed.

End RationalMathFacts.

(** ** The claims on concrete inputs *)

Section Concrete.
Import OceanSimulation.
Existing Instance RationalMath.library.
Local Open Scope number_scope.


(** C2, as stated, fails on a driver whose land check answers LAND
    everywhere: the call appends no drop, yet the statistics differ from
    those before the call. *)
Lemma simulateDay_atomic_counterexample :
  ¬ ((∃ d, drops (simulateDay (draws 1) (constructor all_land)) =
           drops (constructor all_land) ++ [d]) ∨
     (currentDay (simulateDay (draws 1) (constructor all_land)) =
        currentDay (constructor all_land) ∧
      drops (simulateDay (draws 1) (constructor all_land)) =
        drops (constructor all_land) ∧
      stats (simulateDay (draws 1) (constructor all_land)) =
        stats (constructor all_land))).
Proof.
  intros [[d Hd]|(_ & _ & Hstats)].
  - apply (f_equal length) in Hd. rewrite length_app in Hd.
    vm_compute in Hd. lia.
  - apply (f_equal (fun o => get o "totalAttempts")) in Hstats.
    vm_compute in Hstats. discriminate Hstats.
Qed.

Lemma simulateDay_commit_witness :
  day_skipped (draws 1) (constructor all_land)
    (simulateDay (draws 1) (constructor all_land)).
Proof.
  destruct (simulateDay_commit (draws 1) (constructor all_land))
    as [_ [Hrec|Hskip]]; [|exact Hskip].
  destruct Hrec as (d & j & _ & _ & Hat & Hne & _).
  exfalso. unfold attemptType in Hat. cbn in Hat. by rewrite <- Hat in Hne.
Defined.

(** C3 on a driver that was constructed and never reset: its statistics
    have no coastal counter, and recording a COASTAL drop makes the counter
    NaN; after a reset the same day makes it 1. *)
Theorem coastal_counter_of_fresh_driver :
  (∀ config, stats (constructor config) !! "coastal" = None) ∧
  Drop.locationType <$> drops (simulateDay (draws 1) (constructor all_coastal)) =
    [VString "COASTAL"] ∧
  stats (simulateDay (draws 1) (constructor all_coastal)) !! "coastal" = Some NaN ∧
  get (stats (simulateDay (draws 1) (reset (constructor all_coastal)))) "coastal" =
    int 1.
Proof.
  split; [done|]. split; [by vm_compute|]. split; [by vm_compute|].
  vm_compute. apply (f_equal Num). by apply Qc_is_canon.
Qed.

Lemma simulateDay_all_land_witness :
  get (stats (simulateDay (draws 1) (constructor all_land))) "landAttempts" =
    get (stats (constructor all_land)) "landAttempts" + int 100.
Proof.
  apply (simulateDay_all_land (draws 1) (constructor all_land)).
  intros k Hk. reflexivity.
Defined.

Lemma getDistanceToCoast_minimum_witness :
  ∃ r, getDistanceToCoast square_geometry (int 50) (int 50) = Ok r ∧
       num_le (int 0) r.
Proof.
  destruct (getDistanceToCoast_minimum (M:=RationalMath.library)
              RationalMath_sqrt_range RationalMath_atan2_range
              square_geometry (int 50) (int 50))
    as [_ H].
  destruct (H square_ring eq_refl) as (r & Hr & H0 & _).
  exists r. by split.
Defined.

Lemma constructor_totalDays_witness :
  totalDays (constructor {| Config.totalDays := Some (int 0);
                            Config.onCheckLand := None |}) = int 1825 ∧
  totalDays (constructor all_ocean) = int 3.
Proof.
  split.
  - apply (proj1 (constructor_totalDays _)). right. by left.
  - apply (proj2 (constructor_totalDays all_ocean)); [done| |done].
    intros H%int_inj. lia.
Defined.

End Concrete.

(** ** Further invariants of driver runs *)

Section RunFacts.
Import OceanSimulation.
Context {M : MathLibrary}.
Local Open Scope number_scope.

(** A property kept by the four ways a call can change a driver is kept by
    every call, and so holds after every run once it holds after
    construction. *)
Lemma perform_preserves (P : OceanSimulation -> Prop) :
  (∀ this b, P this -> P (set_isRunning b this)) ->
  (∀ this v, P this -> P (set_delay v this)) ->
  (∀ this, P this -> P (reset this)) ->
  (∀ this random, P this -> P (simulateDay random this)) ->
  ∀ this c, P this -> P (perform this c).
Proof.
  intros Hflag Hdelay Hreset Hday this c HP.
  assert (∀ random this0, P this0 -> P (loop random this0)) as Hloop.
  { intros random this0 H0. unfold loop.
    destruct (negb (isRunning this0)); [done|].
    destruct (Number.ge _ _); [by apply Hflag|by apply Hday]. }
  destruct c as [random| | |speedVal|random|random]; simpl.
  - unfold start. destruct (_ && _); [|done]. by apply Hloop, Hflag.
  - by apply Hflag.
  - by apply Hreset.
  - by apply Hdelay.
  - by apply Hloop.
  - by apply Hday.
Qed.

Lemma run_preserves (P : OceanSimulation -> Prop) :
  (∀ this b, P this -> P (set_isRunning b this)) ->
  (∀ this v, P this -> P (set_delay v this)) ->
  (∀ this, P this -> P (reset this)) ->
  (∀ this random, P this -> P (simulateDay random this)) ->
  ∀ (calls : list call) this, P this -> P (fold_left perform calls this).
Proof.
  intros Hflag Hdelay Hreset Hday.
  induction calls as [|c calls IH]; intros this HP; simpl; [done|].
  by apply IH, perform_preserves.
Qed.

Lemma get_Some (o : Stats) (key : string) (x : number) :
  o !! key = Some x -> get o key = x.
Proof. unfold get. by intros ->. Qed.

Lemma counters_balanced_simulateDay (random : nat -> number) (this : OceanSimulation) :
  counters_balanced this -> counters_balanced (simulateDay random this).
Proof.
  intros (l & Hl0 & Hla & Hw & Hta & Hland).
  destruct (simulateDay_cases random this) as [_ [Hrec|Hskip]].
  - destruct Hrec as (d & j & _ & _ & _ & _ & Hdrops & _ & _ & _ & _ & _
                        & Hta' & Hla' & Hw' & _ & _ & Hkeys).
    exists (l + Z.of_nat j)%Z. rewrite Hdrops, length_app. simpl.
    split; [lia|]. split; [by rewrite Hla', Hla, int_add|]. split.
    { rewrite (get_Some _ _ _ Hw'), Hw, int_add. f_equal. lia. }
    split; [|by rewrite Hkeys].
    rewrite Hta', Hta, int_add. f_equal. lia.
  - destruct Hskip as (_ & Hdrops & _ & Hkeys & Hta' & Hla').
    exists (l + 100)%Z. rewrite Hdrops.
    split; [lia|]. split; [by rewrite Hla', Hla, int_add|]. split.
    { unfold get. rewrite Hkeys by done. exact Hw. }
    split; [|by rewrite Hkeys].
    rewrite Hta', Hta, int_add. f_equal. lia.
Qed.

Lemma counters_balanced_run (config : Config) (calls : list call) :
  counters_balanced (run config calls).
Proof.
  apply (run_preserves counters_balanced); try done.
  - intros this _. exists 0%Z. by repeat split.
  - intros this random. apply counters_balanced_simulateDay.
  - exists 0%Z. by repeat split.
Qed.

(** X1. After every driver run, water is the number of recorded drops,
    totalAttempts is landAttempts plus water, and the land entry of the
    statistics is still 0. *)
Theorem counters_balance (config : Config) (calls : list call) :
  ∃ l : Z,
    (0 ≤ l)%Z ∧
    get (stats (run config calls)) "landAttempts" = int l ∧
    get (stats (run config calls)) "water" =
      int (Z.of_nat (length (drops (run config calls)))) ∧
    get (stats (run config calls)) "totalAttempts" =
      int (l + Z.of_nat (length (drops (run config calls)))) ∧
    stats (run config calls) !! "land" = Some (int 0).
Proof. apply counters_balanced_run. Qed.

(** X2. In every history the drops carry the days 1, 2, 3, ... in order:
    the drop at index i has day i + 1. *)
Theorem days_are_consecutive (config : Config) (calls : list call) :
  ∀ (i : nat) (d : Drop),
    drops (run config calls) !! i = Some d ->
    Drop.day d = int (Z.of_nat (S i)).
Proof.
  apply (run_preserves (fun this =>
    days_counted this ∧
    ∀ i d, drops this !! i = Some d -> Drop.day d = int (Z.of_nat (S i)))).
  - intros this b [Hd H]. split; [by eapply days_counted_ext|done].
  - intros this v [Hd H]. split; [by eapply days_counted_ext|done].
  - intros this _. split; [apply days_counted_reset|]. by intros [|i] d.
  - intros this random [Hd H].
    split; [by apply days_counted_simulateDay|].
    destruct Hd as [Hday _].
    destruct (simulateDay_cases random this) as [_ [Hrec|Hskip]].
    + destruct Hrec as (d & j & _ & _ & _ & _ & Hdrops & Hcur & Hdd & _).
      rewrite Hdrops. intros i d0 Hi.
      apply lookup_app_Some in Hi as [Hi|[Hlen Hi]]; [by apply H|].
      apply list_lookup_singleton_Some in Hi as [Hi <-].
      rewrite Hdd, Hcur, Hday, int_add. f_equal. lia.
    + destruct Hskip as (_ & Hdrops & _). by rewrite Hdrops.
  - split; [apply days_counted_constructor|]. by intros [|i] d.
Qed.

Lemma drop_faithful_ext (this this' : OceanSimulation) (d : Drop) :
  onCheckLand this' = onCheckLand this -> drop_faithful this d -> drop_faithful this' d.
Proof. unfold drop_faithful. by intros ->. Qed.

Lemma value_eqb_false (a b : value) : value_eqb a b = false -> a ≠ b.
Proof.
  intros H ->. destruct b as [b|s]; simpl in H.
  - by destruct b.
  - by rewrite String.eqb_refl in H.
Qed.

Lemma value_eqb_true (a b : value) : value_eqb a b = true -> a = b.
Proof.
  destruct a as [x|x], b as [y|y]; simpl; try done.
  - intros H. f_equal. by destruct x, y.
  - by intros ->%String.eqb_eq.
Qed.

Lemma drops_faithful_run (config : Config) (calls : list call) :
  Forall (drop_faithful (run config calls)) (drops (run config calls)).
Proof.
  apply (run_preserves (fun this => Forall (drop_faithful this) (drops this)));
    try done.
  - intros this random H.
    destruct (simulateDay_cases random this) as [(_ & _ & _ & Hc) [Hrec|Hskip]].
    + destruct Hrec as (d & j & _ & _ & Hat & Hne & Hdrops & _ & _ & Hsample
                          & Hdist & Htemp & _).
      rewrite Hdrops. apply Forall_app. split.
      * eapply Forall_impl; [done|]. intros d0. by apply drop_faithful_ext.
      * apply Forall_singleton. eapply drop_faithful_ext; [done|].
        unfold attemptType in Hat. rewrite <- Hsample in Hat.
        repeat split; try done. by apply value_eqb_false.
    + destruct Hskip as (_ & Hdrops & _). rewrite Hdrops.
      eapply Forall_impl; [done|]. intros d0. by apply drop_faithful_ext.
Qed.

(** X3. Every drop of every history stores the answer of the driver's land
    check at the drop's own coordinates - its location type and, for an
    object answer, its distance - and the temperature of its latitude; and
    no drop is LAND. *)
Theorem drops_are_faithful (config : Config) (calls : list call) (d : Drop) :
  d ∈ drops (run config calls) ->
  Drop.locationType d =
    locationTypeOf (onCheckLand (run config calls) (Drop.lon d) (Drop.lat d)) ∧
  Drop.distanceKm d =
    distanceKmOf (onCheckLand (run config calls) (Drop.lon d) (Drop.lat d)) ∧
  Drop.temp d = calculateTemperature (Drop.lat d) ∧
  Drop.locationType d ≠ VString "LAND".
Proof.
  intros Hd. by apply (proj1 (Forall_forall _ _) (drops_faithful_run config calls)).
Qed.

End RunFacts.

(** ** The state machine of the driver *)

Section StateMachine.
Import OceanSimulation.
Context {M : MathLibrary}.
Local Open Scope number_scope.

Lemma num_le_antisym (a b : number) : num_le a b -> num_le b a -> a = b.
Proof.
  intros Hab Hba. inversion Hab; subst; inversion Hba; subst; try done.
  f_equal. by apply Qcle_antisym.
Qed.

(** [a >= b] excludes [a < b]. *)
Lemma ge_true_lt_false (a b : number) : Number.ge a b = true -> (a <? b) = false.
Proof.
  unfold Number.ge. intros Hge%le_true.
  destruct (a <? b) eqn:Hlt; [|done].
  apply lt_true in Hlt as [Hle Hne]. destruct Hne. by apply num_le_antisym.
Qed.

Lemma settings_run (config : Config) (calls : list call) :
  totalDays (run config calls) = totalDays (constructor config) ∧
  onCheckLand (run config calls) = onCheckLand (constructor config).
Proof.
  apply (run_preserves (fun this =>
    totalDays this = totalDays (constructor config) ∧
    onCheckLand this = onCheckLand (constructor config))); try done.
  intros this random [Ht Hc].
  destruct (simulateDay_cases random this) as [(Ht' & _ & _ & Hc') _].
  by rewrite Ht', Hc'.
Qed.

(** A day adds at most one drop. *)
Lemma simulateDay_length (random : nat -> number) (this : OceanSimulation) :
  (length (drops (simulateDay random this)) ≤ S (length (drops this)))%nat.
Proof.
  destruct (simulateDay_cases random this) as [_ [Hrec|Hskip]].
  - destruct Hrec as (d & j & _ & _ & _ & _ & -> & _).
    rewrite length_app. simpl. lia.
  - destruct Hskip as (_ & -> & _). lia.
Qed.

(** X4. A run in which simulateDay is reached only through start and the
    timer never records more drops than totalDays, when totalDays is a
    non-negative integer. *)
Theorem timer_runs_stop_at_totalDays (config : Config) (calls : list call) (n : Z) :
  totalDays (constructor config) = int n ->
  (0 ≤ n)%Z ->
  Forall timer_driven calls ->
  (Z.of_nat (length (drops (run config calls))) ≤ n)%Z.
Proof.
  intros Hn Hn0 Hcalls. unfold run.
  set (P := fun this : OceanSimulation =>
              totalDays this = int n ∧ days_counted this ∧
              (Z.of_nat (length (drops this)) ≤ n)%Z).
  assert (P (constructor config)) as H0.
  { split; [done|]. split; [apply days_counted_constructor|]. simpl. lia. }
  enough (P (fold_left perform calls (constructor config))) as (_ & _ & H) by done.
  revert H0. generalize (constructor config).
  induction Hcalls as [|c calls Hc _ IH]; intros this HP; simpl; [done|].
  apply IH. clear IH.
  assert (∀ b, P (set_isRunning b this)) as Hflag.
  { intros b. destruct HP as (? & ? & ?).
    split; [done|]. split; [by eapply days_counted_ext|done]. }
  assert (∀ random this0, P this0 -> P (loop random this0)) as Hloop.
  { intros random this0 (Ht & Hd & Hlen). unfold loop.
    destruct (negb (isRunning this0)); [done|].
    destruct (Number.ge (currentDay this0) (totalDays this0)) eqn:Hge.
    - split; [done|]. split; [by eapply days_counted_ext|done].
    - destruct (simulateDay_cases random this0) as [(Ht' & _) _].
      split; [by rewrite Ht'|]. split; [by apply days_counted_simulateDay|].
      pose proof (simulateDay_length random this0) as Hlen'.
      destruct Hd as [Hday _]. rewrite Hday, Ht in Hge.
      unfold Number.ge in Hge. apply le_false in Hge. rewrite int_le in Hge. lia. }
  destruct c as [random| | |speedVal|random|random]; simpl.
  - unfold start. destruct (_ && _); [|done]. apply Hloop, Hflag.
  - apply Hflag.
  - destruct HP as (? & ? & ?).
    split; [done|]. split; [apply days_counted_reset|]. simpl. lia.
  - destruct HP as (? & ? & ?).
    split; [done|]. split; [by eapply days_counted_ext|done].
  - by apply Hloop.
  - done.
Qed.

(** X5. Once the day counter has reached totalDays, start, pause, setSpeed
    and the timer leave the history, the day counter and the statistics as
    they are: only reset or a direct simulateDay changes them. *)
Theorem finished_is_terminal (this : OceanSimulation) (calls : list call) :
  Number.ge (currentDay this) (totalDays this) = true ->
  Forall keeps_history calls ->
  drops (fold_left perform calls this) = drops this ∧
  currentDay (fold_left perform calls this) = currentDay this ∧
  stats (fold_left perform calls this) = stats this.
Proof.
  intros Hge Hcalls.
  set (P := fun this' : OceanSimulation =>
              totalDays this' = totalDays this ∧ drops this' = drops this ∧
              currentDay this' = currentDay this ∧ stats this' = stats this).
  enough (∀ this0, P this0 -> P (fold_left perform calls this0)) as H.
  { by destruct (H this) as (_ & ? & ? & ?). }
  induction Hcalls as [|c calls Hc _ IH]; intros this0 HP; simpl; [done|].
  apply IH. clear IH. destruct HP as (Ht & Hd & Hc0 & Hs).
  assert (Number.ge (currentDay this0) (totalDays this0) = true) as Hge0
    by by rewrite Hc0, Ht.
  destruct c as [random| | |speedVal|random|random]; simpl.
  - unfold start. by rewrite (ge_true_lt_false _ _ Hge0), andb_false_r.
  - done.
  - done.
  - done.
  - unfold loop. destruct (negb (isRunning this0)); [done|]. by rewrite Hge0.
  - done.
Qed.

(** X6. reset after any run gives the freshly reset driver but for the
    delay: totalDays and the land check are those of the construction, the
    delay is the one last set. *)
Theorem reset_keeps_only_delay (config : Config) (calls : list call) :
  reset (run config calls) =
    set_delay (delay (run config calls)) (reset (constructor config)).
Proof.
  destruct (settings_run config calls) as [Ht Hc].
  unfold reset, set_delay, set_stats, set_drops, set_currentDay, set_isRunning.
  cbn [totalDays currentDay delay isRunning drops stats onCheckLand].
  by rewrite Ht, Hc.
Qed.

Lemma coastalHits_snoc (ds : list Drop) (d : Drop) :
  coastalHits (ds ++ [d]) =
    (coastalHits ds +
     (if value_eqb (Drop.locationType d) (VString "COASTAL") then 1 else 0))%nat.
Proof.
  unfold coastalHits. rewrite List.filter_app, length_app. simpl.
  by destruct (value_eqb _ _).
Qed.

Lemma coastal_counted_simulateDay (random : nat -> number) (this : OceanSimulation) :
  coastal_counted this -> coastal_counted (simulateDay random this).
Proof.
  unfold coastal_counted. intros Hc.
  destruct (simulateDay_cases random this) as [_ [Hrec|Hskip]].
  - destruct Hrec as (d & j & _ & _ & _ & _ & Hdrops & _ & _ & _ & _ & _
                        & _ & _ & _ & Hco & _).
    rewrite Hdrops, coastalHits_snoc. unfold get at 1. rewrite Hco.
    destruct (value_eqb _ _); simpl.
    + rewrite Hc, int_add. f_equal. lia.
    + fold (get (stats this) "coastal"). rewrite Hc. f_equal. lia.
  - destruct Hskip as (_ & Hdrops & _ & Hkeys & _).
    unfold get. rewrite Hdrops, Hkeys by done. exact Hc.
Qed.

(** X7. From a reset on, the coastal counter of the statistics is the
    number of COASTAL drops in the history, the count that updateStats
    shows. *)
Theorem coastal_counter_after_reset (this : OceanSimulation) (calls : list call) :
  get (stats (fold_left perform calls (reset this))) "coastal" =
    int (Z.of_nat (coastalHits (drops (fold_left perform calls (reset this))))).
Proof.
  apply (run_preserves coastal_counted); try done.
  intros this0 random. apply coastal_counted_simulateDay.
Qed.

(** X8. A driver constructed without a land check records a drop on the
    first attempt of every day: the drop's location type is the boolean
    false and its distance is null, totalAttempts grows by 1 and
    landAttempts stays. *)
Theorem default_land_check_records (config : Config) (calls : list call)
    (random : nat -> number) :
  Config.onCheckLand config = None ->
  ∃ d : Drop,
    drops (simulateDay random (run config calls)) = drops (run config calls) ++ [d] ∧
    Drop.locationType d = VBoolean false ∧
    Drop.distanceKm d = None ∧
    get (stats (simulateDay random (run config calls))) "totalAttempts" =
      get (stats (run config calls)) "totalAttempts" + int 1 ∧
    get (stats (simulateDay random (run config calls))) "landAttempts" =
      get (stats (run config calls)) "landAttempts".
Proof.
  intros Hnone.
  destruct (settings_run config calls) as [_ Hc].
  assert (∀ lon lat, onCheckLand (run config calls) lon lat =
                     InfoPrimitive (VBoolean false)) as Hcheck.
  { intros lon lat. rewrite Hc. unfold constructor. cbn [onCheckLand].
    by rewrite Hnone. }
  assert (∀ c, attemptType (run config calls) random c = VBoolean false) as Hat.
  { intros c. unfold attemptType.
    destruct (sphericalSample _ _) as [lon lat]. by rewrite Hcheck. }
  destruct (simulateDay_cases random (run config calls)) as [_ [Hrec|Hskip]].
  - destruct Hrec as (d & j & Hj & Hbefore & Hty & _ & Hdrops & _ & _ & _
                        & Hdist & _ & Hta & Hla & _).
    assert (j = 0%nat) as ->.
    { destruct j as [|j]; [done|].
      specialize (Hbefore 0%nat ltac:(lia)). by rewrite Hat in Hbefore. }
    exists d. rewrite Hat in Hty. rewrite Hcheck in Hdist.
    rewrite add_int_0 in Hla. by repeat split.
  - destruct Hskip as (Hall & _). specialize (Hall 0%nat ltac:(lia)).
    by rewrite Hat in Hall.
Qed.

End StateMachine.

(** ** Speed, sampling and geometry *)

Section SpeedFacts.
Import OceanSimulation.
Local Open Scope number_scope.

Lemma setSpeed_delay_mono (s1 s2 : Qc) :
  (s1 ≤ s2)%Qc ->
  (Qc_of_Z 200 - s2 / Qc_of_Z 100 * Qc_of_Z 199 ≤
   Qc_of_Z 200 - s1 / Qc_of_Z 100 * Qc_of_Z 199)%Qc.
Proof.
  intros H.
  assert (Qc_of_Z 100 ≠ 0%Qc) as H100.
  { rewrite <- Z2Qc_inj_0. by intros ?%Z2Qc_inj. }
  assert (0 ≤ Qc_of_Z 199 / Qc_of_Z 100)%Qc as Hk.
  { apply Qcmult_nonneg_nonneg.
    - rewrite <- Z2Qc_inj_0. by apply (proj1 (Z2Qc_inj_le 0 199)).
    - apply Qclt_le_weak, Qcinv_pos. rewrite <- Z2Qc_inj_0.
      by apply (proj1 (Z2Qc_inj_lt 0 100)). }
  replace (s2 / Qc_of_Z 100 * Qc_of_Z 199)%Qc
    with (s2 * (Qc_of_Z 199 / Qc_of_Z 100))%Qc by by field.
  replace (s1 / Qc_of_Z 100 * Qc_of_Z 199)%Qc
    with (s1 * (Qc_of_Z 199 / Qc_of_Z 100))%Qc by by field.
  unfold Qcminus. apply Qcplus_le_mono_l, Qcopp_le_compat.
  by apply Qcmult_le_mono_nonneg_r.
Qed.

(** X9. On control values between 1 and 100 the delay falls as the speed
    rises and stays between 1 ms and 198.01 ms, so it is always positive. *)
Theorem setSpeed_range (this : OceanSimulation) (s1 s2 : Qc) :
  (Qc_of_Z 1 ≤ s1)%Qc -> (s1 ≤ s2)%Qc -> (s2 ≤ Qc_of_Z 100)%Qc ->
  ∃ d1 d2 : Qc,
    delay (setSpeed (Num s1) this) = Num d1 ∧
    delay (setSpeed (Num s2) this) = Num d2 ∧
    (Qc_of_Z 1 ≤ d2)%Qc ∧ (d2 ≤ d1)%Qc ∧ (d1 ≤ Q2Qc (19801 # 100))%Qc.
Proof.
  intros H1 H12 H2. eexists _, _. split; [done|]. split; [done|].
  split; [|split].
  - replace (Qc_of_Z 1)
      with (Qc_of_Z 200 - Qc_of_Z 100 / Qc_of_Z 100 * Qc_of_Z 199)%Qc
      by by apply Qc_is_canon.
    by apply setSpeed_delay_mono.
  - by apply setSpeed_delay_mono.
  - replace (Q2Qc (19801 # 100))
      with (Qc_of_Z 200 - Qc_of_Z 1 / Qc_of_Z 100 * Qc_of_Z 199)%Qc
      by by apply Qc_is_canon.
    by apply setSpeed_delay_mono.
Qed.

End SpeedFacts.

Section SamplingFacts.
Import OceanSimulation.
Context {M : MathLibrary}.
Local Open Scope number_scope.

(** X10. The sampled longitude is 360 v - 180 for the second random value
    v, whatever the host's Math functions are; for v in [0, 1) it lies in
    [-180, 180). *)
Theorem sphericalSample_longitude (u : number) (v : Qc) :
  (sphericalSample u (Num v)).1 = Num (Qc_of_Z 360 * v - Qc_of_Z 180) ∧
  ((0 ≤ v)%Qc -> (v < 1)%Qc ->
   (Qc_of_Z (-180) ≤ Qc_of_Z 360 * v - Qc_of_Z 180)%Qc ∧
   (Qc_of_Z 360 * v - Qc_of_Z 180 < Qc_of_Z 180)%Qc).
Proof.
  split.
  - unfold sphericalSample, Math_PI, dec, int. cbn [fst].
    set (p := Q2Qc (884279719003555 # 281474976710656)).
    assert (p ≠ 0%Qc) as Hp by (intros [=]).
    cbn [Number.mul Number.div Number.sub Number.add Number.neg].
    assert (Qc_eqb p 0 = false) as -> by by apply Qc_eqb_false.
    cbn [Number.mul Number.sub Number.add Number.neg].
    apply (f_equal Num).
    replace (Qc_of_Z 360) with (Qc_of_Z 2 * Qc_of_Z 180)%Qc
      by by rewrite <- Z2Qc_inj_mul.
    by field.
  - intros H0 H1.
    assert (0 < Qc_of_Z 360)%Qc as H360.
    { rewrite <- Z2Qc_inj_0. by apply (proj1 (Z2Qc_inj_lt 0 360)). }
    split.
    + replace (Qc_of_Z (-180)) with (Qc_of_Z 360 * 0 - Qc_of_Z 180)%Qc
        by by apply Qc_is_canon.
      unfold Qcminus. apply Qcplus_le_mono_r.
      apply Qcmult_le_mono_nonneg_l; [by apply Qclt_le_weak|done].
    + replace (Qc_of_Z 180) with (Qc_of_Z 360 * 1 - Qc_of_Z 180)%Qc at 2
        by by apply Qc_is_canon.
      unfold Qcminus. apply Qcplus_lt_mono_r.
      by apply Qcmult_lt_mono_pos_l.
Qed.

End SamplingFacts.

Section GeometryFacts.
Context {M : MathLibrary}.
Local Open Scope number_scope.

(** The classifier as one expression of the distance and the land test. *)
Lemma getTerrainTypeWithDistance_returns (g : Geometry) (lon lat : number) :
  ∃ distKm land,
    getDistanceToCoast g lat lon = Ok distKm ∧
    isOnLandPolygon g lon lat = Ok land ∧
    getTerrainTypeWithDistance g lon lat =
      Ok (if (land : bool) then {| type := "LAND"; distanceKm := int 0 |}
          else if distKm <=? int 1 then {| type := "COASTAL"; distanceKm := distKm |}
          else if distKm <=? int 100 then {| type := "SHELF"; distanceKm := distKm |}
          else if distKm <=? int 300 then {| type := "FAR"; distanceKm := distKm |}
          else {| type := "DEEP_OCEAN"; distanceKm := distKm |}).
Proof.
  destruct (getDistanceToCoast_total g lat lon) as [distKm Hd].
  destruct (isOnLandPolygon_total g lon lat) as [land Hl].
  exists distKm, land. unfold getTerrainTypeWithDistance.
  rewrite Hd, Hl. simpl. unfold ZONE_COASTAL_KM, ZONE_SHELF_KM, ZONE_FAR_KM.
  destruct land; [done|].
  by destruct (distKm <=? int 1), (distKm <=? int 100), (distKm <=? int 300).
Qed.

(** X11. South of -80 degrees every point is LAND at distance 0, whatever
    the polygons and the coastline are. *)
Theorem polar_cap_is_land (g : Geometry) (lon lat : number) :
  (lat <? int (-80)) = true ->
  isOnLandPolygon g lon lat = Ok true ∧
  getTerrainTypeWithDistance g lon lat =
    Ok {| type := "LAND"; distanceKm := int 0 |}.
Proof.
  intros Hlat.
  assert (isOnLandPolygon g lon lat = Ok true) as Hland.
  { unfold isOnLandPolygon. by rewrite Hlat. }
  split; [done|].
  destruct (getTerrainTypeWithDistance_returns g lon lat)
    as (distKm & land & _ & Hl & ->).
  rewrite Hland in Hl. by injection Hl as <-.
Qed.

(** A stream of fewer than two points has no segment. *)
Lemma getDistanceToCoast_short (g : Geometry) (lat lon : number) :
  (coastlineCoords g = None ∨
   ∃ coords, coastlineCoords g = Some coords ∧ (length coords ≤ 1)%nat) ->
  getDistanceToCoast g lat lon = Ok Infinity.
Proof.
  unfold getDistanceToCoast. intros [->|(coords & -> & Hlen)]; [done|].
  destruct coords as [|c [|c' coords]]; simpl in *; [done|done|lia].
Qed.

(** X12. Before any geometry is loaded - no coastline, or one of fewer
    than two points, and no polygon - a point from -80 degrees north is
    DEEP_OCEAN at distance Infinity. *)
Theorem no_geometry_is_deep_ocean (g : Geometry) (lon lat : number) :
  (coastlineCoords g = None ∨
   ∃ coords, coastlineCoords g = Some coords ∧ (length coords ≤ 1)%nat) ->
  landPolygons g = [] ->
  (lat <? int (-80)) = false ->
  getDistanceToCoast g lat lon = Ok Infinity ∧
  isOnLandPolygon g lon lat = Ok false ∧
  getTerrainTypeWithDistance g lon lat =
    Ok {| type := "DEEP_OCEAN"; distanceKm := Infinity |}.
Proof.
  intros Hcoast Hpoly Hlat.
  pose proof (getDistanceToCoast_short g lat lon Hcoast) as Hd.
  assert (isOnLandPolygon g lon lat = Ok false) as Hl.
  { unfold isOnLandPolygon. by rewrite Hlat, Hpoly. }
  split; [done|]. split; [done|].
  destruct (getTerrainTypeWithDistance_returns g lon lat)
    as (distKm & land & Hd' & Hl' & ->).
  rewrite Hd in Hd'. rewrite Hl in Hl'.
  injection Hd' as <-. by injection Hl' as <-.
Qed.

Lemma isPointInPolygon_loop_flat (lon lat : number) (polygon : list coord) (b : bool) :
  (∀ v, v ∈ polygon -> (v.2 >? lat) = b) ->
  ∀ (fuel i j : nat) (inside : bool),
    (length polygon ≤ fuel + i)%nat ->
    ((i < length polygon)%nat -> (j < length polygon)%nat) ->
    isPointInPolygon_loop lon lat polygon fuel i j inside = Ok inside.
Proof.
  intros Hflat.
  induction fuel as [|fuel IH]; intros i j inside Hfuel Hj; simpl.
  - by destruct (Nat.ltb_spec i (length polygon)); [lia|].
  - destruct (Nat.ltb_spec i (length polygon)) as [Hi|Hi]; [|done].
    destruct (destructure_lt polygon i Hi) as ([xi yi] & Hvi & ->). simpl.
    destruct (destructure_lt polygon j (Hj Hi)) as ([xj yj] & Hvj & ->). simpl.
    assert ((yi >? lat) = b) as Hyi.
    { apply (Hflat (xi, yi)). by eapply list_elem_of_lookup_2. }
    assert ((yj >? lat) = b) as Hyj.
    { apply (Hflat (xj, yj)). by eapply list_elem_of_lookup_2. }
    rewrite Hyi, Hyj, Bool.eqb_reflx. simpl.
    apply IH; [lia|done].
Qed.

(** X13. A point whose latitude compares alike with the latitude of every
    vertex of a ring - at or above all of them, or below all of them - is
    outside the ring. *)
Theorem isPointInPolygon_outside_latitudes
    (lon lat : number) (polygon : list coord) (b : bool) :
  (∀ v, v ∈ polygon -> (v.2 >? lat) = b) ->
  isPointInPolygon lon lat polygon = Ok false.
Proof.
  intros Hflat. apply (isPointInPolygon_loop_flat lon lat polygon b Hflat); lia.
Qed.

(** An edge between two vertices of one longitude is crossed by the ray of
    a point west of it whose latitude lies between the two. *)
Lemma crossing_vertical (lon lat x ya yb : Qc) :
  crossing (Num lon) (Num lat) (Num x, Num ya) (Num x, Num yb) =
    Ok (negb (Bool.eqb (Qc_ltb lat ya) (Qc_ltb lat yb)) && Qc_ltb lon x).
Proof.
  destruct (decide ((Num ya >? Num lat) = (Num yb >? Num lat))) as [H|H].
  - rewrite crossing_no_xor by done. simpl in H. rewrite H.
    by rewrite Bool.eqb_reflx.
  - destruct (crossing_xor (Num lon) (Num lat) (Num x) (Num ya) (Num x) (Num yb) H)
      as [Hd ->].
    simpl in H, Hd |- *. unfold int in Hd. rewrite Z2Qc_inj_0 in Hd.
    rewrite Hd. simpl.
    replace ((x + - x) * (lat + - ya) / (yb + - ya) + x)%Qc with x.
    + by destruct (Qc_ltb lat ya), (Qc_ltb lat yb).
    + apply Qc_eqb_false in Hd. by field.
Qed.

Lemma crossing_horizontal (lon lat xi xj y : number) :
  crossing lon lat (xi, y) (xj, y) = Ok false.
Proof. by apply crossing_no_xor. Qed.

(** X14. For the ring that runs around an axis-parallel rectangle, west
    side first, the test is the half-open box: a point is inside exactly
    when x0 <= lon < x1 and y0 <= lat < y1, so the west and south sides
    belong to the ring and the east and north sides do not. *)
Theorem isPointInPolygon_rectangle (x0 x1 y0 y1 lon lat : Qc) :
  (x0 < x1)%Qc -> (y0 < y1)%Qc ->
  ∃ inside : bool,
    isPointInPolygon (Num lon) (Num lat)
      [(Num x0, Num y0); (Num x0, Num y1); (Num x1, Num y1); (Num x1, Num y0)] =
      Ok inside ∧
    (inside = true ↔
     (x0 ≤ lon)%Qc ∧ (lon < x1)%Qc ∧ (y0 ≤ lat)%Qc ∧ (lat < y1)%Qc).
Proof.
  intros Hx Hy. unfold isPointInPolygon.
  cbn [length Nat.sub isPointInPolygon_loop Nat.ltb Nat.leb destructure
       lookup list_lookup mbind result_bind].
  rewrite !crossing_horizontal, !crossing_vertical.
  cbn [mbind result_bind].
  eexists. split; [done|].
  destruct (Qc_ltb lat y0) eqn:E0, (Qc_ltb lat y1) eqn:E1,
           (Qc_ltb lon x0) eqn:F0, (Qc_ltb lon x1) eqn:F1; simpl;
    rewrite ?Qc_ltb_true, ?Qc_ltb_false in *;
    split; try done; try (intros (? & ? & ? & ?));
    try (by repeat split);
    exfalso;
    repeat match goal with
           | H : (?a ≤ ?b)%Qc, H' : (?b < ?a)%Qc |- _ =>
               by apply (Qcle_not_lt _ _ H)
           end;
    try (by eapply (Qcle_not_lt y1 lat); [done|eapply Qclt_trans]);
    try (by eapply (Qcle_not_lt x1 lon); [done|eapply Qclt_trans]).
Qed.

End GeometryFacts.

Section HaversineFacts.
Context {M : MathLibrary}.
Local Open Scope number_scope.

Lemma neg_add (a b : number) : Number.neg (a + b) = Number.neg a + Number.neg b.
Proof.
  destruct a as [x| | |], b as [y| | |]; simpl; try done.
  apply (f_equal Num). ring.
Qed.

Lemma neg_neg (a : number) : Number.neg (Number.neg a) = a.
Proof. destruct a as [x| | |]; simpl; try done. apply (f_equal Num). ring. Qed.

Lemma add_comm (a b : number) : a + b = b + a.
Proof.
  destruct a as [x| | |], b as [y| | |]; simpl; try done.
  apply (f_equal Num). ring.
Qed.

Lemma mul_comm (a b : number) : a * b = b * a.
Proof.
  destruct a as [x| | |], b as [y| | |]; simpl; try done.
  apply (f_equal Num). ring.
Qed.

Lemma sub_swap (a b : number) : b - a = Number.neg (a - b).
Proof. unfold Number.sub. by rewrite neg_add, neg_neg, add_comm. Qed.

Lemma neg_scale_inf (s : bool) (c : Qc) :
  Number.neg (Number.scale_inf s c) = Number.scale_inf (negb s) c.
Proof.
  unfold Number.scale_inf. destruct (Qc_eqb c 0); [done|].
  by destruct s, (Qc_ltb 0 c).
Qed.

Lemma neg_mul_Num (a : number) (c : Qc) :
  Number.neg a * Num c = Number.neg (a * Num c).
Proof.
  destruct a as [x| | |]; simpl; try done.
  - apply (f_equal Num). ring.
  - by rewrite neg_scale_inf.
  - by rewrite neg_scale_inf.
Qed.

Lemma neg_div_Num (a : number) (c : Qc) :
  c ≠ 0%Qc -> Number.neg a / Num c = Number.neg (a / Num c).
Proof.
  intros Hc. destruct a as [x| | |]; simpl; try done.
  - apply Qc_eqb_false in Hc as Hc'. rewrite Hc'.
    apply (f_equal Num). by field.
  - by destruct (Qc_ltb c 0).
  - by destruct (Qc_ltb c 0).
Qed.

Lemma sqr_neg (a : number) : Number.sqr (Number.neg a) = Number.sqr a.
Proof.
  destruct a as [x| | |]; simpl; try done. apply (f_equal Num). ring.
Qed.

(** The half angle of a difference changes sign with the difference. *)
Lemma half_angle_swap (a b : number) :
  (b - a) * Math_PI / int 180 / int 2 =
    Number.neg ((a - b) * Math_PI / int 180 / int 2).
Proof.
  rewrite (sub_swap a b). unfold Math_PI, dec, int.
  rewrite neg_mul_Num, !neg_div_Num; [done|..];
    rewrite <- Z2Qc_inj_0; by intros ?%Z2Qc_inj.
Qed.

(** X15. When the host's sine is odd, the haversine distance is symmetric:
    from A to B it is what it is from B to A. *)
Theorem haversineDistance_symmetric (lat1 lon1 lat2 lon2 : number) :
  (∀ x, Math_sin (Number.neg x) = Number.neg (Math_sin x)) ->
  haversineDistance lat1 lon1 lat2 lon2 = haversineDistance lat2 lon2 lat1 lon1.
Proof.
  intros Hodd. unfold haversineDistance. cbv zeta.
  rewrite (half_angle_swap lat1 lat2), (half_angle_swap lon1 lon2).
  rewrite !Hodd, !sqr_neg.
  by rewrite (mul_comm (Math_cos (lat1 * Math_PI / int 180))).
Qed.

End HaversineFacts.

Section LoadingFacts.

Lemma foldl_push {A : Type} (acc l : list A) : foldl push acc l = acc ++ l.
Proof.
  revert acc. induction l as [|x l IH]; intros acc; simpl.
  - by rewrite app_nil_r.
  - rewrite IH. unfold push. by rewrite <- app_assoc.
Qed.

Lemma deriveCoastlineCoords_from (acc : list coord) (polygons : list (list coord)) :
  foldl (fun coastlineCoords ring => foldl push coastlineCoords ring) acc polygons =
    acc ++ concat polygons.
Proof.
  revert acc. induction polygons as [|ring polygons IH]; intros acc; simpl.
  - by rewrite app_nil_r.
  - by rewrite IH, foldl_push, <- app_assoc.
Qed.

(** X16. The coastline point stream derived from the precomputed polygons
    is their concatenation, ring after ring and vertex after vertex: it has
    as many points as the rings have vertices together, and a point is in
    the stream exactly when it is a vertex of some ring. *)
Theorem deriveCoastlineCoords_flattens (polygons : list (list coord)) :
  deriveCoastlineCoords polygons = concat polygons ∧
  length (deriveCoastlineCoords polygons) = sum_list (length <$> polygons) ∧
  (∀ c : coord,
     c ∈ deriveCoastlineCoords polygons ↔ ∃ ring, ring ∈ polygons ∧ c ∈ ring).
Proof.
  assert (deriveCoastlineCoords polygons = concat polygons) as Heq.
  { unfold deriveCoastlineCoords. by rewrite deriveCoastlineCoords_from. }
  rewrite Heq. clear Heq. split; [done|]. split.
  - induction polygons as [|ring polygons IH]; simpl; [done|].
    rewrite length_app. by f_equal.
  - intros c. induction polygons as [|ring polygons IH]; simpl.
    + rewrite elem_of_nil. split; [done|].
      by intros (r & ?%elem_of_nil & _).
    + rewrite elem_of_app, IH. split.
      * intros [H|(r & Hr & Hc)]; [exists ring|exists r];
          (split; [apply elem_of_cons; by auto|done]).
      * intros (r & [->|Hr]%elem_of_cons & Hc); [by left|right; by exists r].
Qed.

End LoadingFacts.

(** ** The summary panel *)

Section SummaryFacts.
Import OceanSimulation.
Context {M : MathLibrary}.
Local Open Scope number_scope.

Lemma foldl_temps (ds : list Drop) :
  ∀ (ts : list Qc) (a : Qc),
    Drop.temp <$> ds = Num <$> ts ->
    foldl (fun sum d => sum + Drop.temp d) (Num a) ds = Num (a + sum ts).
Proof.
  induction ds as [|d ds IH]; intros [|t ts] a Hts; simpl in *; try done.
  - apply (f_equal Num). unfold sum. simpl. ring.
  - injection Hts as Ht Hts. rewrite Ht. simpl. rewrite (IH ts) by done.
    apply (f_equal Num). unfold sum. simpl. ring.
Qed.

(** X17. After every driver run with at least one drop, whose temperatures
    are rationals, the mean that updateSummaryStats recomputes from the
    history is the running avgTemp of the statistics. *)
Theorem summary_avgTemp_agrees (config : Config) (calls : list call) (ts : list Qc) :
  (1 ≤ length ts)%nat ->
  Drop.temp <$> drops (run config calls) = Num <$> ts ->
  Summary.avgTemp (drops (run config calls)) =
    get (stats (run config calls)) "avgTemp".
Proof.
  intros Hn Hts.
  destruct (run_invariant config calls) as [_ Hmean].
  destruct (Hmean ts Hts) as (a & Ha & Hsum).
  rewrite (get_Some _ _ _ Ha). unfold Summary.avgTemp, int.
  rewrite (foldl_temps _ ts) by done.
  assert (length (drops (run config calls)) = length ts) as ->.
  { by rewrite <- (length_fmap Drop.temp), Hts, length_fmap. }
  destruct (length ts) as [|n] eqn:Hlen; [lia|].
  pose proof (Qc_of_nat_S_nonzero n) as Hnz.
  cbn [Number.div]. apply Qc_eqb_false in Hnz as Hnz'. rewrite Hnz'.
  apply (f_equal Num). rewrite <- Hsum, Z2Qc_inj_0. by field.
Qed.

(** A left fold that keeps the better of two elements ends with an element
    of the list that is at least as good as every other. *)
Lemma foldl_pick {A : Type} (better : A -> A -> bool) (R : A -> A -> Prop) :
  (∀ a b c, R a b -> R b c -> R a c) ->
  ∀ (l : list A) (x : A),
    (∀ a, a ∈ x :: l -> R a a) ->
    (∀ a b, a ∈ x :: l -> b ∈ x :: l -> better a b = true -> R a b) ->
    (∀ a b, a ∈ x :: l -> b ∈ x :: l -> better a b = false -> R b a) ->
    foldl (fun a b => if better a b then a else b) x l ∈ x :: l ∧
    ∀ d, d ∈ x :: l -> R (foldl (fun a b => if better a b then a else b) x l) d.
Proof.
  intros Htrans. induction l as [|b l IH]; intros x Hrefl Ht Hf; simpl.
  - split; [by left|]. intros d ->%list_elem_of_singleton. apply Hrefl. by left.
  - set (x' := if better x b then x else b).
    assert (x' ∈ x :: b :: l) as Hx'.
    { unfold x'. destruct (better x b); [by left|right; by left]. }
    assert (R x' x ∧ R x' b) as [Hxx Hxb].
    { unfold x'. destruct (better x b) eqn:E.
      - split; [apply Hrefl; by left|]. apply Ht; [by left|right; by left|done].
      - split; [|apply Hrefl; right; by left].
        apply Hf; [by left|right; by left|done]. }
    assert (∀ a, a ∈ x' :: l -> a ∈ x :: b :: l) as Hsub.
    { intros a [->|Ha]%elem_of_cons; [done|]. right. by right. }
    destruct (IH x') as [Hin Hbest].
    { intros a Ha. by apply Hrefl, Hsub. }
    { intros a c Ha Hc. apply Ht; by apply Hsub. }
    { intros a c Ha Hc. apply Hf; by apply Hsub. }
    split; [by apply Hsub|].
    intros d [->|[->|Hd]%elem_of_cons]%elem_of_cons.
    + eapply Htrans; [|exact Hxx]. apply Hbest. by left.
    + eapply Htrans; [|exact Hxb]. apply Hbest. by left.
    + apply Hbest. by right.
Qed.

Lemma dropsWithDist_key (drops : list Drop) (d : Drop) :
  d ∈ Summary.dropsWithDist drops ->
  Summary.toNumber (Drop.distanceKm d) ≠ NaN.
Proof.
  unfold Summary.dropsWithDist. rewrite list_elem_of_In, List.filter_In.
  intros [_ H]. destruct (Drop.distanceKm d) as [x|]; [|done]. simpl.
  apply lt_true in H as [H _]. by eapply num_le_not_NaN_r.
Qed.

(** X18. When some drop has a positive distance, the closest and the
    farthest drop of the summary are drops with a positive distance, and
    the distance of every such drop lies between theirs. *)
Theorem summary_closest_farthest (drops : list Drop) :
  Summary.dropsWithDist drops ≠ [] ->
  ∃ c f : Drop,
    Summary.closest (Summary.dropsWithDist drops) = Some c ∧
    Summary.farthest (Summary.dropsWithDist drops) = Some f ∧
    c ∈ Summary.dropsWithDist drops ∧ f ∈ Summary.dropsWithDist drops ∧
    ∀ d, d ∈ Summary.dropsWithDist drops ->
      num_le (Summary.toNumber (Drop.distanceKm c))
             (Summary.toNumber (Drop.distanceKm d)) ∧
      num_le (Summary.toNumber (Drop.distanceKm d))
             (Summary.toNumber (Drop.distanceKm f)).
Proof.
  intros Hne. pose proof (dropsWithDist_key drops) as Hkey.
  destruct (Summary.dropsWithDist drops) as [|x l]; [done|].
  set (k := fun d : Drop => Summary.toNumber (Drop.distanceKm d)).
  destruct (foldl_pick (fun a b => k a <? k b) (fun a b => num_le (k a) (k b)))
    with (l := l) (x := x) as [Hc Hmin].
  { intros a b c. apply num_le_trans. }
  { intros a Ha. by apply num_le_refl, Hkey. }
  { intros a b _ _ H. by apply lt_true in H as [H _]. }
  { intros a b Ha Hb H. apply lt_false; [by apply Hkey..|done]. }
  destruct (foldl_pick (fun a b => k a >? k b) (fun a b => num_le (k b) (k a)))
    with (l := l) (x := x) as [Hf Hmax].
  { intros a b c H1 H2. by eapply num_le_trans. }
  { intros a Ha. by apply num_le_refl, Hkey. }
  { intros a b _ _ H. by apply lt_true in H as [H _]. }
  { intros a b Ha Hb H. apply lt_false; [by apply Hkey..|done]. }
  eexists _, _. split; [done|]. split; [done|]. split; [exact Hc|].
  split; [exact Hf|]. intros d Hd. split; [by apply Hmin|by apply Hmax].
Qed.

(** X19. After every driver run with at least one drop the summary shows
    a water percentage, not the placeholder: it is 100 times the drops over
    totalAttempts, more than 0 and at most 100. *)
Theorem summary_waterPct (config : Config) (calls : list call) :
  (1 ≤ length (drops (run config calls)))%nat ->
  ∃ (p : Qc) (t : Z),
    Summary.waterPct (stats (run config calls)) = Some (Num p) ∧
    get (stats (run config calls)) "totalAttempts" = int t ∧
    p = (Qc_of_Z (Z.of_nat (length (drops (run config calls)))) / Qc_of_Z t
         * Qc_of_Z 100)%Qc ∧
    (0 < p)%Qc ∧ (p ≤ Qc_of_Z 100)%Qc.
Proof.
  intros Hn.
  destruct (counters_balanced_run config calls) as (l & Hl0 & Hla & _ & Hta & _).
  set (n := Z.of_nat (length (drops (run config calls)))) in *.
  assert (0 < Qc_of_Z n)%Qc as Hnpos.
  { rewrite <- Z2Qc_inj_0. apply (proj1 (Z2Qc_inj_lt 0 n)). lia. }
  assert (0 < Qc_of_Z (l + n))%Qc as Htpos.
  { rewrite <- Z2Qc_inj_0. apply (proj1 (Z2Qc_inj_lt 0 (l + n))). lia. }
  assert (Qc_of_Z (l + n) ≠ 0%Qc) as Htnz.
  { intros H. rewrite H in Htpos. by apply (Qclt_not_eq _ _ Htpos). }
  assert (0 < Qc_of_Z 100)%Qc as H100.
  { rewrite <- Z2Qc_inj_0. by apply (proj1 (Z2Qc_inj_lt 0 100)). }
  exists (Qc_of_Z n / Qc_of_Z (l + n) * Qc_of_Z 100)%Qc, (l + n)%Z.
  split; [|split; [done|split; [done|split]]].
  - unfold Summary.waterPct. rewrite Hta, Hla. unfold int. simpl.
    rewrite Z2Qc_inj_0.
    assert (Qc_ltb 0 (Qc_of_Z (l + n)) = true) as -> by by apply Qc_ltb_true.
    assert (Qc_eqb (Qc_of_Z (l + n)) 0 = false) as -> by by apply Qc_eqb_false.
    cbn [Number.mul]. apply (f_equal Some), (f_equal Num).
    rewrite Z2Qc_inj_add in *. by field.
  - apply Qcmult_pos_pos; [|done].
    apply Qcmult_pos_pos; [done|by apply Qcinv_pos].
  - rewrite <- (Qcmult_1_l (Qc_of_Z 100)) at 2.
    apply Qcmult_le_mono_nonneg_r; [by apply Qclt_le_weak|].
    apply (proj2 (Qcmult_le_mono_pos_r _ 1 (Qc_of_Z (l + n)) Htpos)).
    rewrite Qcmult_1_l, (Qcmult_comm _ (Qc_of_Z (l + n))), Qcmult_div_r by done.
    apply (proj1 (Z2Qc_inj_le n (l + n))). lia.
Qed.

End SummaryFacts.

(** ** The driver under the page's land check *)

Section AppFacts.
Import OceanSimulation.
Context {M : MathLibrary}.
Local Open Scope number_scope.

Lemma setupSimulation_onCheckLand (g : Geometry) (calls : list call)
    (lon lat : number) :
  ∃ info, getTerrainTypeWithDistance g lon lat = Ok info ∧
          onCheckLand (run (setupSimulation g) calls) lon lat = InfoObject info.
Proof.
  destruct (settings_run (setupSimulation g) calls) as [_ ->].
  destruct (getTerrainTypeWithDistance_returns g lon lat)
    as (distKm & land & _ & _ & Heq).
  eexists. split; [exact Heq|].
  change (onCheckLand (constructor (setupSimulation g)) lon lat)
    with (match getTerrainTypeWithDistance g lon lat with
          | Ok info => InfoObject info
          | Throw _ => InfoPrimitive (VString "LAND")
          end).
  by rewrite Heq.
Qed.

Lemma VString_inj (a b : string) : VString a = VString b ↔ a = b.
Proof. split; [by intros [= ->]|by intros ->]. Qed.

(** What the page's land check leaves in a recorded drop. *)
Lemma page_drop_zone (g : Geometry) (calls : list call) (d : Drop) :
  d ∈ drops (run (setupSimulation g) calls) ->
  ∃ x : number,
    getDistanceToCoast g (Drop.lat d) (Drop.lon d) = Ok x ∧
    isOnLandPolygon g (Drop.lon d) (Drop.lat d) = Ok false ∧
    (Drop.lat d <? int (-80)) = false ∧
    Drop.distanceKm d = Some x ∧
    ocean_zone (Drop.locationType d) ∧
    (Drop.locationType d = VString "COASTAL" ↔ num_le x (int 1)) ∧
    (Drop.locationType d = VString "SHELF" ↔
       ¬ num_le x (int 1) ∧ num_le x (int 100)) ∧
    (Drop.locationType d = VString "FAR" ↔
       ¬ num_le x (int 100) ∧ num_le x (int 300)) ∧
    (Drop.locationType d = VString "DEEP_OCEAN" ↔ ¬ num_le x (int 300)).
Proof.
  intros Hd.
  destruct (proj1 (Forall_forall _ _) (drops_faithful_run (setupSimulation g) calls)
              d Hd) as (Hty & Hdist & _ & Hne).
  destruct (setupSimulation_onCheckLand g calls (Drop.lon d) (Drop.lat d))
    as (info & Hinfo & Hcheck).
  rewrite Hcheck in Hty, Hdist. simpl in Hty, Hdist.
  destruct (getTerrainTypeWithDistance_returns g (Drop.lon d) (Drop.lat d))
    as (x & land & Hx & Hland & Heq).
  rewrite Heq in Hinfo. injection Hinfo as <-.
  destruct land; [by rewrite Hty in Hne|].
  exists x. split; [done|]. split; [done|]. split.
  { unfold isOnLandPolygon in Hland. by destruct (Drop.lat d <? int (-80)). }
  assert (num_le x (int 1) -> num_le x (int 100)) as F1.
  { intros H. eapply num_le_trans; [done|]. by apply int_le. }
  assert (num_le x (int 100) -> num_le x (int 300)) as F2.
  { intros H. eapply num_le_trans; [done|]. by apply int_le. }
  rewrite Hty, Hdist. unfold ocean_zone. rewrite !VString_inj.
  destruct (x <=? int 1) eqn:H1;
    [apply le_true in H1|apply le_false in H1];
    [|destruct (x <=? int 100) eqn:H2;
      [apply le_true in H2|apply le_false in H2];
      [|destruct (x <=? int 300) eqn:H3;
        [apply le_true in H3|apply le_false in H3]]];
    simpl; (split; [done|]); (split; [naive_solver|]);
    repeat split; try done; try tauto; try (intros [? ?]; tauto).
Qed.

(** X20. Under the page's land check every recorded drop lies at or north
    of -80 degrees and outside every polygon, stores the distance to the
    coast of its own coordinates, and carries the ocean zone of that
    distance: COASTAL up to 1 km, SHELF up to 100 km, FAR up to 300 km,
    DEEP_OCEAN beyond. *)
Theorem page_drops_are_ocean_zones (g : Geometry) (calls : list call) (d : Drop) :
  d ∈ drops (run (setupSimulation g) calls) ->
  ∃ x : number,
    getDistanceToCoast g (Drop.lat d) (Drop.lon d) = Ok x ∧
    isOnLandPolygon g (Drop.lon d) (Drop.lat d) = Ok false ∧
    (Drop.lat d <? int (-80)) = false ∧
    Drop.distanceKm d = Some x ∧
    ocean_zone (Drop.locationType d) ∧
    (Drop.locationType d = VString "COASTAL" ↔ num_le x (int 1)) ∧
    (Drop.locationType d = VString "SHELF" ↔
       ¬ num_le x (int 1) ∧ num_le x (int 100)) ∧
    (Drop.locationType d = VString "FAR" ↔
       ¬ num_le x (int 100) ∧ num_le x (int 300)) ∧
    (Drop.locationType d = VString "DEEP_OCEAN" ↔ ¬ num_le x (int 300)).
Proof. apply page_drop_zone. Qed.

Lemma page_coastal_test (g : Geometry) (calls : list call) (d : Drop) :
  d ∈ drops (run (setupSimulation g) calls) ->
  value_eqb (Drop.locationType d) (VString "COASTAL") =
    match Drop.distanceKm d with
    | Some x => x <=? int 1
    | None => false
    end.
Proof.
  intros Hd.
  destruct (page_drop_zone g calls d Hd) as (x & _ & _ & _ & -> & _ & Hco & _).
  destruct (x <=? int 1) eqn:Hle.
  - apply le_true, Hco in Hle. by rewrite Hle.
  - destruct (value_eqb _ _) eqn:Hv; [|done].
    apply value_eqb_true, Hco, le_true in Hv. congruence.
Qed.

(** X21. Under the page's land check the two coastal counts of the panel
    agree after every run: the drops whose zone is COASTAL are the drops
    within 1 km of the coast. *)
Theorem page_coastal_counts_agree (g : Geometry) (calls : list call) :
  List.filter (fun d => value_eqb (Drop.locationType d) (VString "COASTAL"))
              (drops (run (setupSimulation g) calls)) =
    Summary.coastalDrops (drops (run (setupSimulation g) calls)) ∧
  coastalHits (drops (run (setupSimulation g) calls)) =
    length (Summary.coastalDrops (drops (run (setupSimulation g) calls))).
Proof.
  assert (List.filter
            (fun d => value_eqb (Drop.locationType d) (VString "COASTAL"))
            (drops (run (setupSimulation g) calls)) =
          Summary.coastalDrops (drops (run (setupSimulation g) calls))) as H.
  { unfold Summary.coastalDrops. apply List.filter_ext_in. intros d Hd.
    by apply (page_coastal_test g calls), list_elem_of_In. }
  split; [done|]. unfold coastalHits. by rewrite H.
Qed.

End AppFacts.

Section PageDistances.
Import OceanSimulation.
Context {M : MathLibrary}.
Local Open Scope number_scope.

Hypothesis Math_sqrt_range : ∀ x, nonneg_or_nan (Math_sqrt x).
Hypothesis Math_atan2_range :
  ∀ y x, nonneg_or_nan y -> nonneg_or_nan (Math_atan2 y x).

Lemma getDistanceToCoast_nonneg (g : Geometry) (lat lon r : number) :
  getDistanceToCoast g lat lon = Ok r -> num_le (int 0) r.
Proof.
  unfold getDistanceToCoast. destruct (coastlineCoords g) as [coords|].
  - intros Hr.
    by destruct (getDistanceToCoast_loop_min Math_sqrt_range Math_atan2_range
                   coords lat lon (length coords) 0 Infinity r)
      as (Hr0 & _); [done|by constructor|].
  - intros [= <-]. by constructor.
Qed.

(** X22. Under the page's land check, and with a square root and an
    arctangent that are never negative on their ranges, the distance stored
    in every recorded drop is a number that is not negative, so it is
    neither null nor NaN. *)
Theorem page_distances_nonneg (g : Geometry) (calls : list call) (d : Drop) :
  d ∈ drops (run (setupSimulation g) calls) ->
  ∃ x : number, Drop.distanceKm d = Some x ∧ num_le (int 0) x.
Proof.
  intros Hd.
  destruct (page_drop_zone g calls d Hd) as (x & Hx & _ & _ & Hdist & _).
  exists x. split; [done|]. by eapply getDistanceToCoast_nonneg.
Qed.

End PageDistances.

Section TemperatureFacts.
Import OceanSimulation.
Context {M : MathLibrary}.
Local Open Scope number_scope.

(** X23. Where the host's cosine of the latitude is a rational c between
    -1 and 1, the temperature is -2 + 32 c, between -34 and 30 degrees; and
    it is at least -2 degrees where c is not negative. *)
Theorem calculateTemperature_range (lat : number) (c : Qc) :
  Math_cos (lat * (Math_PI / int 180)) = Num c ->
  (Qc_of_Z (-1) ≤ c)%Qc -> (c ≤ Qc_of_Z 1)%Qc ->
  calculateTemperature lat = Num (Qc_of_Z (-2) + Qc_of_Z 32 * c) ∧
  (Qc_of_Z (-34) ≤ Qc_of_Z (-2) + Qc_of_Z 32 * c)%Qc ∧
  (Qc_of_Z (-2) + Qc_of_Z 32 * c ≤ Qc_of_Z 30)%Qc ∧
  ((0 ≤ c)%Qc -> (Qc_of_Z (-2) ≤ Qc_of_Z (-2) + Qc_of_Z 32 * c)%Qc).
Proof.
  intros Hcos Hlo Hhi.
  assert (0 ≤ Qc_of_Z 32)%Qc as H32.
  { rewrite <- Z2Qc_inj_0. by apply (proj1 (Z2Qc_inj_le 0 32)). }
  split; [|split; [|split]].
  - unfold calculateTemperature. cbv zeta. by rewrite Hcos.
  - replace (Qc_of_Z (-34)) with (Qc_of_Z (-2) + Qc_of_Z 32 * Qc_of_Z (-1))%Qc
      by by apply Qc_is_canon.
    by apply Qcplus_le_mono_l, Qcmult_le_mono_nonneg_l.
  - replace (Qc_of_Z 30) with (Qc_of_Z (-2) + Qc_of_Z 32 * Qc_of_Z 1)%Qc
      by by apply Qc_is_canon.
    by apply Qcplus_le_mono_l, Qcmult_le_mono_nonneg_l.
  - intros H0.
    rewrite <- (Qcplus_0_r (Qc_of_Z (-2))) at 1.
    by apply Qcplus_le_mono_l, Qcmult_nonneg_nonneg.
Qed.

End TemperatureFacts.

(** ** Extracting the geometry from GeoJSON *)

Section ExtractFacts.

Lemma foldl_preserves {A B : Type} (P : A -> Prop) (f : A -> B -> A) :
  (∀ a b, P a -> P (f a b)) -> ∀ (l : list B) (a : A), P a -> P (foldl f a l).
Proof.
  intros Hf. induction l as [|b l IH]; intros a Ha; simpl; [done|].
  by apply IH, Hf.
Qed.

Lemma concat_snoc {A : Type} (ls : list (list A)) (l : list A) :
  concat (ls ++ [l]) = concat ls ++ l.
Proof. rewrite concat_app. simpl. by rewrite app_nil_r. Qed.

Lemma nonempty_rings_app (a b : list (list coord)) :
  nonempty_rings (a ++ b) = nonempty_rings a ++ nonempty_rings b.
Proof. apply List.filter_app. Qed.

Lemma processRing_extracted (seen : list (list coord)) (ring : list coord)
    (g : list (list coord) * list coord) :
  extracted seen g -> extracted (seen ++ [ring]) (processRing ring g).
Proof.
  destruct g as [lp cc]. intros [Hlp Hcc]. simpl in Hlp, Hcc. subst.
  unfold extracted. rewrite nonempty_rings_app, concat_snoc.
  destruct ring as [|c ring]; simpl.
  - by rewrite !app_nil_r.
  - split; [done|]. unfold push at 2. by rewrite (foldl_push _ ring), <- app_assoc.
Qed.

Lemma processRings_extracted (rings seen : list (list coord))
    (g : list (list coord) * list coord) :
  extracted seen g ->
  extracted (seen ++ rings) (foldl (fun g ring => processRing ring g) g rings).
Proof.
  revert seen g. induction rings as [|ring rings IH]; intros seen g Hg; simpl.
  - by rewrite app_nil_r.
  - replace (seen ++ ring :: rings) with ((seen ++ [ring]) ++ rings)
      by by rewrite <- app_assoc.
    by apply IH, processRing_extracted.
Qed.

Lemma processPolygons_extracted (polygons : list (list (list coord)))
    (seen : list (list coord)) (g : list (list coord) * list coord) :
  extracted seen g ->
  extracted (seen ++ concat polygons)
    (foldl (fun g polygon => foldl (fun g ring => processRing ring g) g polygon)
           g polygons).
Proof.
  revert seen g. induction polygons as [|polygon polygons IH]; intros seen g Hg;
    simpl.
  - by rewrite app_nil_r.
  - rewrite app_assoc. by apply IH, processRings_extracted.
Qed.

Lemma processRing_flattened (ring : list coord) (g : list (list coord) * list coord) :
  flattened g -> flattened (processRing ring g).
Proof.
  destruct g as [lp cc]. intros [Hcc Hne]. simpl in Hcc, Hne. subst.
  destruct ring as [|c ring]; simpl; [done|]. split; simpl.
  - rewrite (foldl_push _ ring). unfold push.
    by rewrite concat_snoc, <- app_assoc.
  - apply Forall_app. split; [done|]. by apply Forall_singleton.
Qed.

Lemma processCoords_flattened (geometry : GeoGeometry)
    (g : list (list coord) * list coord) :
  flattened g -> flattened (processCoords geometry g).
Proof.
  intros Hg.
  assert (∀ line g0, flattened g0 -> flattened (processLine line g0)) as Hline.
  { intros [|c line] g0 H0; [done|]. by apply processRing_flattened. }
  destruct geometry as [c|l|l|ls|rings|polygons|gs]; simpl; try done.
  - by apply Hline.
  - by apply Hline.
  - destruct ls as [|l ls]; [done|].
    apply (foldl_preserves flattened); [|done].
    intros a b. apply Hline.
  - apply (foldl_preserves flattened); [|done].
    intros a b. apply processRing_flattened.
  - apply (foldl_preserves flattened); [|done].
    intros a polygon Ha. apply (foldl_preserves flattened); [|done].
    intros a' b. apply processRing_flattened.
Qed.

(** X24. After extractCoastlineCoords on any land features, the coastline
    point stream is the concatenation of the land polygons, in their order,
    and no land polygon is empty. *)
Theorem extractCoastlineCoords_flattens (landFeatures : GeoJSON) (old : Geometry) :
  coastlineCoords (extractCoastlineCoords (Some landFeatures) old) =
    Some (concat (landPolygons (extractCoastlineCoords (Some landFeatures) old))) ∧
  Forall (fun ring => ring ≠ [])
         (landPolygons (extractCoastlineCoords (Some landFeatures) old)).
Proof.
  assert (flattened (([], []) : list (list coord) * list coord)) as H0.
  { by split. }
  unfold extractCoastlineCoords. cbv zeta.
  set (g := match landFeatures with
            | FeatureCollection _ => _
            | _ => _
            end).
  enough (flattened g) as [Hcc Hne] by (simpl; by rewrite Hcc).
  unfold g. destruct landFeatures as [features|[geometry|]|geometry].
  - apply (foldl_preserves flattened); [|done].
    intros a [geometry|] Ha; [by apply processCoords_flattened|done].
  - by apply processCoords_flattened.
  - done.
  - destruct geometry as [c|l|l|ls|rings|polygons|gs]; try done.
    + by apply (processCoords_flattened (GPolygon rings)).
    + by apply (processCoords_flattened (GMultiPolygon polygons)).
    + apply (foldl_preserves flattened); [|done].
      intros a b. apply processCoords_flattened.
Qed.

(** X25. From a feature whose geometry is a MultiPolygon, extraction
    yields the geometry that loading the precomputed polygons yields for the
    non-empty rings of all its polygons: every ring becomes a land polygon,
    the interior rings (holes) as much as the exterior ones. *)
Theorem extractCoastlineCoords_multipolygon
    (polygons : list (list (list coord))) (old : Geometry) :
  extractCoastlineCoords (Some (Feature (Some (GMultiPolygon polygons)))) old =
    loadPrecomputed (nonempty_rings (concat polygons)).
Proof.
  unfold extractCoastlineCoords, loadPrecomputed. cbv zeta.
  cbn [processCoords].
  destruct (processPolygons_extracted polygons [] ([], [])) as [Hlp Hcc];
    [by split|].
  simpl in Hlp, Hcc. rewrite Hlp, Hcc. f_equal. f_equal.
  unfold deriveCoastlineCoords. rewrite deriveCoastlineCoords_from. simpl.
  generalize (concat polygons). intros rings.
  induction rings as [|[|c ring] rings IH]; simpl; [done|done|].
  by rewrite IH.
Qed.

End ExtractFacts.

(** ** More on pausing, sampling stride and rings *)

Section MoreFacts.
Import OceanSimulation.
Context {M : MathLibrary}.
Local Open Scope number_scope.

(** X26. While a driver is not running, timer firings, pause and setSpeed
    leave the history, the day counter and the statistics as they are, and
    the driver stays not running: a pending timer does nothing after
    pause. *)
Theorem paused_ignores_timer (this : OceanSimulation) (calls : list call) :
  isRunning this = false ->
  Forall keeps_paused calls ->
  isRunning (fold_left perform calls this) = false ∧
  drops (fold_left perform calls this) = drops this ∧
  currentDay (fold_left perform calls this) = currentDay this ∧
  stats (fold_left perform calls this) = stats this.
Proof.
  intros Hrun Hcalls.
  set (P := fun this' : OceanSimulation =>
              isRunning this' = false ∧ drops this' = drops this ∧
              currentDay this' = currentDay this ∧ stats this' = stats this).
  enough (∀ this0, P this0 -> P (fold_left perform calls this0)) as H.
  { by apply (H this). }
  induction Hcalls as [|c calls Hc _ IH]; intros this0 HP; simpl; [done|].
  apply IH. clear IH. destruct HP as (Hr & Hd & Hc0 & Hs).
  destruct c as [random| | |speedVal|random|random]; simpl.
  - done.
  - done.
  - done.
  - done.
  - unfold loop. by rewrite Hr.
  - done.
Qed.

Lemma getDistanceToCoast_loop_agree (coords1 coords2 : list coord)
    (lat lon : number) :
  length coords1 = length coords2 ->
  (∀ k, coords1 !! (k * step)%nat = coords2 !! (k * step)%nat) ->
  coords1 !! (length coords1 - 1)%nat = coords2 !! (length coords1 - 1)%nat ->
  ∀ (fuel k : nat) (minDist : number),
    getDistanceToCoast_loop coords1 lat lon fuel (k * step) minDist =
    getDistanceToCoast_loop coords2 lat lon fuel (k * step) minDist.
Proof.
  intros Hlen Hsampled Hlast.
  induction fuel as [|fuel IH]; intros k minDist; simpl; rewrite <- Hlen.
  - done.
  - destruct (Nat.ltb_spec (k * step) (length coords1 - 1)) as [Hi|Hi]; [|done].
    unfold destructure. rewrite <- (Hsampled k).
    assert (coords1 !! Nat.min (k * step + step) (length coords1 - 1) =
            coords2 !! Nat.min (k * step + step) (length coords1 - 1)) as <-.
    { destruct (Nat.le_gt_cases (k * step + step) (length coords1 - 1)) as [H|H].
      - rewrite Nat.min_l by done.
        replace (k * step + step)%nat with (S k * step)%nat by (unfold step; lia).
        apply Hsampled.
      - rewrite Nat.min_r by lia. exact Hlast. }
    destruct (coords1 !! (k * step)%nat) as [[aLon aLat]|]; [|done]. simpl.
    destruct (coords1 !! Nat.min (k * step + step) (length coords1 - 1))
      as [[bLon bLat]|]; [|done]. simpl.
    replace (k * step + step)%nat with (S k * step)%nat by (unfold step; lia).
    apply IH.
Qed.

(** X27. The distance to the coast reads only every tenth point of the
    stream and its last point: two streams of one length that agree on
    these points give the same distance for every query, whatever their
    other points are. *)
Theorem getDistanceToCoast_reads_sampled_points
    (g1 g2 : Geometry) (coords1 coords2 : list coord) (lat lon : number) :
  coastlineCoords g1 = Some coords1 ->
  coastlineCoords g2 = Some coords2 ->
  length coords1 = length coords2 ->
  (∀ k, coords1 !! (k * step)%nat = coords2 !! (k * step)%nat) ->
  coords1 !! (length coords1 - 1)%nat = coords2 !! (length coords1 - 1)%nat ->
  getDistanceToCoast g1 lat lon = getDistanceToCoast g2 lat lon.
Proof.
  intros H1 H2 Hlen Hsampled Hlast. unfold getDistanceToCoast.
  rewrite H1, H2, <- Hlen.
  by apply (getDistanceToCoast_loop_agree coords1 coords2 lat lon Hlen Hsampled
              Hlast (length coords1) 0).
Qed.

Lemma isOnLandPolygon_loop_true (lon lat : number) (polygons : list (list coord)) :
  isOnLandPolygon_loop lon lat polygons = Ok true ↔
  ∃ polygon, polygon ∈ polygons ∧ isPointInPolygon lon lat polygon = Ok true.
Proof.
  induction polygons as [|polygon polygons IH]; simpl.
  - split; [done|]. by intros (p & ?%elem_of_nil & _).
  - destruct (isPointInPolygon_total lon lat polygon) as [b Hb].
    rewrite Hb. simpl. destruct b.
    + split; [|done]. intros _. exists polygon. split; [by left|done].
    + rewrite IH. split.
      * intros (p & Hp & Hin). exists p. split; [by right|done].
      * intros (p & [->|Hp]%elem_of_cons & Hin); [congruence|by exists p].
Qed.

(** X28. The land test is the union of the rings and the polar cap: a
    point is on land exactly when it lies south of -80 degrees or inside
    some ring of the land polygons, so a ring inside another ring never
    takes land away. *)
Theorem isOnLandPolygon_is_union (g : Geometry) (lon lat : number) :
  isOnLandPolygon g lon lat = Ok true ↔
  (lat <? int (-80)) = true ∨
  ∃ polygon, polygon ∈ landPolygons g ∧ isPointInPolygon lon lat polygon = Ok true.
Proof.
  unfold isOnLandPolygon. destruct (lat <? int (-80)).
  - split; [by left|done].
  - rewrite isOnLandPolygon_loop_true. split; [by right|by intros [?|?]].
Qed.

Import PrimFloat.

(** X29. A ring with no vertex or one vertex contains no point, in exact
    and in double arithmetic.  A ring of two vertices contains no point in
    exact arithmetic only (between rationals), where its two edges cross
    the ray together or not at all; in double arithmetic the two
    interpolations of the one segment can round to either side of the
    query, and isPointInPolygon(0.2, 0.6, [[0, 0], [1, 3]]) is true. *)
Theorem isPointInPolygon_small_rings (lon lat : number) :
  isPointInPolygon lon lat [] = Ok false ∧
  (∀ v : coord, isPointInPolygon lon lat [v] = Ok false) ∧
  (∀ x0 y0 x1 y1 a b : Qc,
     lon = Num a -> lat = Num b ->
     isPointInPolygon lon lat [(Num x0, Num y0); (Num x1, Num y1)] = Ok false) ∧
  (∀ (x y : PrimFloat.float) (v : PrimFloat.float * PrimFloat.float),
     Float64.isPointInPolygon x y [] = Ok false ∧
     Float64.isPointInPolygon x y [v] = Ok false) ∧
  Float64.isPointInPolygon
    0x1.999999999999ap-3%float (* 0.2 *) 0x1.3333333333333p-1%float (* 0.6 *)
    [(0, 0); (1, 3)]%float = Ok true.
Proof.
  split; [done|]. split; [|split; [|split]].
  - intros [x y]. unfold isPointInPolygon.
    cbn [length Nat.sub isPointInPolygon_loop Nat.ltb Nat.leb destructure
         lookup list_lookup mbind result_bind].
    by rewrite crossing_horizontal.
  - intros x0 y0 x1 y1 a b -> ->. unfold isPointInPolygon.
    cbn [length Nat.sub isPointInPolygon_loop Nat.ltb Nat.leb destructure
         lookup list_lookup mbind result_bind].
    destruct (decide ((Num y0 >? Num b) = (Num y1 >? Num b))) as [H|H].
    + rewrite (crossing_no_xor _ _ _ _ _ _ H). cbn [mbind result_bind].
      by rewrite (crossing_no_xor _ _ _ _ _ _ (eq_sym H)).
    + destruct (crossing_xor (Num a) (Num b) (Num x0) (Num y0) (Num x1) (Num y1) H)
        as [Hd0 ->].
      assert ((Num y1 >? Num b) ≠ (Num y0 >? Num b)) as H' by congruence.
      destruct (crossing_xor (Num a) (Num b) (Num x1) (Num y1) (Num x0) (Num y0) H')
        as [Hd1 Hc1].
      cbn [mbind result_bind]. rewrite Hc1. cbn [mbind result_bind].
      simpl in Hd0, Hd1 |- *. unfold int in Hd0, Hd1.
      rewrite Z2Qc_inj_0 in Hd0, Hd1. rewrite Hd0, Hd1. simpl.
      apply Qc_eqb_false in Hd0, Hd1.
      replace ((x0 + - x1) * (b + - y1) / (y0 + - y1) + x1)%Qc
        with ((x1 + - x0) * (b + - y0) / (y1 + - y0) + x0)%Qc.
      * by destruct (Qc_ltb a _).
      * field. split; [done|].
        intros H0. apply Hd0. rewrite <- H0. ring.
  - intros x y [vx vy]. split; [done|].
    unfold Float64.isPointInPolygon.
    cbn [length Nat.sub Float64.isPointInPolygon_loop Nat.ltb Nat.leb destructure
         lookup list_lookup mbind result_bind Float64.crossing].
    by rewrite Bool.eqb_reflx.
  - vm_compute. reflexivity.
Qed.

End MoreFacts.

(** ** The further properties on concrete inputs *)

Section ConcreteFacts.
Import OceanSimulation.
Existing Instance RationalMath.library.
Local Open Scope number_scope.

Lemma RationalMath_sin_odd (x : number) :
  RationalMath.sin (Number.neg x) = Number.neg (RationalMath.sin x).
Proof.
  destruct x as [q| | |]; simpl; try done.
  apply (f_equal Num).
  assert (Qc_of_Z 6 ≠ 0%Qc) as H6.
  { rewrite <- Z2Qc_inj_0. by intros ?%Z2Qc_inj. }
  by field.
Qed.

Lemma days_are_consecutive_witness :
  ∃ d, drops (run all_ocean three_days) !! 2%nat = Some d ∧ Drop.day d = int 3.
Proof.
  destruct (drops (run all_ocean three_days) !! 2%nat) as [d|] eqn:H;
    [|vm_compute in H; discriminate H].
  exists d. split; [done|].
  exact (days_are_consecutive all_ocean three_days 2 d H).
Defined.

Lemma drops_are_faithful_witness :
  ∃ d, drops (run all_coastal three_days) !! 0%nat = Some d ∧
       Drop.locationType d ≠ VString "LAND".
Proof.
  destruct (drops (run all_coastal three_days) !! 0%nat) as [d|] eqn:H;
    [|vm_compute in H; discriminate H].
  exists d. split; [done|].
  apply (drops_are_faithful all_coastal three_days d).
  by eapply list_elem_of_lookup_2.
Defined.

Lemma timer_runs_stop_at_totalDays_witness :
  (Z.of_nat (length (drops (run all_ocean (three_days ++ three_days)))) ≤ 3)%Z.
Proof.
  apply timer_runs_stop_at_totalDays.
  - reflexivity.
  - lia.
  - repeat constructor.
Defined.

Lemma finished_is_terminal_witness :
  drops (fold_left perform [CallStart (draws 4); CallLoop (draws 5)]
           (run all_ocean three_days)) = drops (run all_ocean three_days).
Proof.
  apply finished_is_terminal.
  - vm_compute. reflexivity.
  - repeat constructor.
Defined.

Lemma default_land_check_records_witness :
  ∃ d, drops (simulateDay (draws 1) (run all_ocean [])) =
         drops (run all_ocean []) ++ [d] ∧
       Drop.locationType d = VBoolean false.
Proof.
  destruct (default_land_check_records all_ocean [] (draws 1) eq_refl)
    as (d & Hd & Hty & _).
  by exists d.
Defined.

Lemma setSpeed_range_witness :
  ∃ d1 d2 : Qc,
    delay (setSpeed (Num (Qc_of_Z 1)) (constructor all_ocean)) = Num d1 ∧
    delay (setSpeed (Num (Qc_of_Z 50)) (constructor all_ocean)) = Num d2 ∧
    (Qc_of_Z 1 ≤ d2)%Qc ∧ (d2 ≤ d1)%Qc ∧ (d1 ≤ Q2Qc (19801 # 100))%Qc.
Proof.
  apply setSpeed_range.
  - apply Qcle_refl.
  - by apply (proj1 (Z2Qc_inj_le 1 50)).
  - by apply (proj1 (Z2Qc_inj_le 50 100)).
Defined.

Lemma polar_cap_is_land_witness :
  getTerrainTypeWithDistance square_geometry (int 0) (int (-85)) =
    Ok {| type := "LAND"; distanceKm := int 0 |}.
Proof.
  apply (polar_cap_is_land square_geometry (int 0) (int (-85))).
  vm_compute. reflexivity.
Defined.

Lemma no_geometry_is_deep_ocean_witness :
  getTerrainTypeWithDistance no_geometry (int 20) (int 10) =
    Ok {| type := "DEEP_OCEAN"; distanceKm := Infinity |}.
Proof.
  apply (no_geometry_is_deep_ocean no_geometry (int 20) (int 10)).
  - by left.
  - reflexivity.
  - vm_compute. reflexivity.
Defined.

Lemma isPointInPolygon_outside_latitudes_witness :
  isPointInPolygon (int 5) (int 50) square_ring = Ok false.
Proof.
  apply (isPointInPolygon_outside_latitudes (int 5) (int 50) square_ring false).
  intros v Hv. unfold square_ring in Hv.
  repeat (apply elem_of_cons in Hv as [->|Hv]; [vm_compute; reflexivity|]).
  by apply elem_of_nil in Hv.
Defined.

Lemma isPointInPolygon_rectangle_witness :
  isPointInPolygon (int 5) (int 5) square_ring = Ok true.
Proof.
  destruct (isPointInPolygon_rectangle (Qc_of_Z 0) (Qc_of_Z 10) (Qc_of_Z 0)
              (Qc_of_Z 10) (Qc_of_Z 5) (Qc_of_Z 5)) as (inside & H & Hiff).
  - by apply (proj1 (Z2Qc_inj_lt 0 10)).
  - by apply (proj1 (Z2Qc_inj_lt 0 10)).
  - unfold square_ring, int. rewrite H. f_equal. apply Hiff.
    repeat split;
      first [by apply (proj1 (Z2Qc_inj_le 0 5))|by apply (proj1 (Z2Qc_inj_lt 5 10))].
Defined.

Lemma haversineDistance_symmetric_witness :
  haversineDistance (int 0) (int 0) (int 10) (int 20) =
    haversineDistance (int 10) (int 20) (int 0) (int 0).
Proof. apply haversineDistance_symmetric. exact RationalMath_sin_odd. Defined.

Lemma summary_avgTemp_agrees_witness :
  Summary.avgTemp (drops (run all_ocean three_days)) =
    get (stats (run all_ocean three_days)) "avgTemp".
Proof.
  apply (summary_avgTemp_agrees all_ocean three_days
           (rationals (Drop.temp <$> drops (run all_ocean three_days)))).
  - vm_compute. lia.
  - vm_compute. reflexivity.
Defined.

Lemma summary_closest_farthest_witness :
  ∃ c f : Drop,
    Summary.closest (Summary.dropsWithDist (drops (run all_coastal three_days))) =
      Some c ∧
    Summary.farthest (Summary.dropsWithDist (drops (run all_coastal three_days))) =
      Some f ∧
    num_le (Summary.toNumber (Drop.distanceKm c))
           (Summary.toNumber (Drop.distanceKm f)).
Proof.
  destruct (summary_closest_farthest (drops (run all_coastal three_days)))
    as (c & f & Hc & Hf & Hcin & Hfin & Hall).
  - intros H. vm_compute in H. discriminate H.
  - exists c, f. split; [done|]. split; [done|]. by apply Hall.
Defined.

Lemma summary_waterPct_witness :
  ∃ p : Qc, Summary.waterPct (stats (run all_ocean three_days)) = Some (Num p) ∧
            (0 < p)%Qc ∧ (p ≤ Qc_of_Z 100)%Qc.
Proof.
  destruct (summary_waterPct all_ocean three_days) as (p & t & Hp & _ & _ & H0 & H1).
  - vm_compute. lia.
  - exists p. split; [exact Hp|]. split; [exact H0|exact H1].
Defined.

Lemma page_drops_are_ocean_zones_witness :
  ∃ d, drops (run (setupSimulation square_geometry) three_days) !! 0%nat = Some d ∧
       ocean_zone (Drop.locationType d).
Proof.
  destruct (drops (run (setupSimulation square_geometry) three_days) !! 0%nat)
    as [d|] eqn:H; [|vm_compute in H; discriminate H].
  exists d. split; [done|].
  destruct (page_drops_are_ocean_zones square_geometry three_days d)
    as (x & _ & _ & _ & _ & Hz & _); [|done].
  by eapply list_elem_of_lookup_2.
Defined.

Lemma page_distances_nonneg_witness :
  ∃ d x, drops (run (setupSimulation square_geometry) three_days) !! 0%nat = Some d ∧
         Drop.distanceKm d = Some x ∧ num_le (int 0) x.
Proof.
  destruct (drops (run (setupSimulation square_geometry) three_days) !! 0%nat)
    as [d|] eqn:H; [|vm_compute in H; discriminate H].
  destruct (page_distances_nonneg (M:=RationalMath.library)
              RationalMath_sqrt_range RationalMath_atan2_range
              square_geometry three_days d) as (x & Hx & H0).
  - eapply list_elem_of_lookup_2. exact H.
  - exists d, x. split; [reflexivity|]. split; [exact Hx|exact H0].
Defined.

Lemma calculateTemperature_range_witness :
  calculateTemperature (int 0) = Num (Qc_of_Z (-2) + Qc_of_Z 32 * Q2Qc 1).
Proof.
  apply (calculateTemperature_range (int 0) (Q2Qc 1)).
  - vm_compute. apply (f_equal Num), Qc_is_canon. reflexivity.
  - vm_compute. discriminate.
  - vm_compute. discriminate.
Defined.

Lemma paused_ignores_timer_witness :
  drops (fold_left perform [CallLoop (draws 2); CallLoop (draws 3)]
           (pause (run all_ocean [CallStart (draws 1)]))) =
    drops (pause (run all_ocean [CallStart (draws 1)])).
Proof.
  apply paused_ignores_timer.
  - reflexivity.
  - repeat constructor.
Defined.

Lemma getDistanceToCoast_reads_sampled_points_witness :
  getDistanceToCoast {| coastlineCoords := Some stream_a; landPolygons := [] |}
                     (int 50) (int 50) =
  getDistanceToCoast {| coastlineCoords := Some stream_b; landPolygons := [] |}
                     (int 50) (int 50).
Proof.
  apply (getDistanceToCoast_reads_sampled_points _ _ stream_a stream_b).
  - reflexivity.
  - reflexivity.
  - reflexivity.
  - intros [|k]; [reflexivity|].
    rewrite !(proj2 (lookup_ge_None _ _)); [done|..]; unfold step; simpl; lia.
  - reflexivity.
Defined.

End ConcreteFacts.

(** ** The running mean and the ray test in double arithmetic *)

Section DoubleFacts.
Import PrimFloat.


End DoubleFacts.
